(** * Record validators of the Pokémon data set

    A shallow embedding of the four validation scripts
    ([scripts/verify-pokedex.ts], [verify-moves], [verify-items],
    [scripts/verify-types.ts]) and the properties their specification
    states about them.

    Layout:
    - [Js]: the fragment of JavaScript values and operators the scripts use
      ([typeof], [in], property reads, truthiness, [String.prototype.trim]);
    - [Arrays]: the store of string arrays the validators allocate and
      mutate ([missingKeys]), as a state monad;
    - [Process]: what a running script does to the outside (report file,
      console, exit code), as a trace;
    - [Pokedex], [Moves], [Items], [Types]: one module per script, with its
      validator and its [main];
    - [DataModel], [Samples]: the record shapes of the specification and a
      few records;
    - [Reported], [Accepted], [Report], [Interfaces]: what a validator
      reports field by field, the records it passes, what a script
      reports, the declared record types;
    - [Effects], [HeapLogic], [Run], [Facts], [Script]: the notions and
      lemmas the proofs share;
    - the theorems, one block per property. *)

From Stdlib Require Import ZArith NArith Bool Ascii Lia.
From Stdlib Require Import Floats.SpecFloat.
From stdpp Require Import base option list gmap strings.

#[local] Set Warnings "-register-all".

(* ===================================================================== *)
(** ** JavaScript values *)
(* ===================================================================== *)

Module Js.

(** A JavaScript string is a sequence of UTF-16 code units. *)
Abbreviation jsstring := (list N).

(** The code units of an ASCII literal. *)
Fixpoint utf16 (s : string) : jsstring :=
  match s with
  | EmptyString => []
  | String c rest => Ascii.N_of_ascii c :: utf16 rest
  end.

(** What [JSON.parse] can return, and [undefined] (what reading an absent
    property gives).  A number is an IEEE 754 binary64 value; an object is
    its map of own properties.  Property keys are kept as [string]; the
    scripts only ever compare them with the ASCII names of the
    [REQUIRED_*] tables. *)
Inductive value : Type :=
  | VUndefined
  | VNull
  | VBool (b : bool)
  | VNumber (n : spec_float)
  | VString (s : jsstring)
  | VArray (items : list value)
  | VObject (props : gmap string value).

(** [array.length], [n] as a binary64 number. *)
Definition number_of_nat (n : nat) : spec_float :=
  binary_normalize 53 1024 (Z.of_nat n) 0 false.

(** [typeof v] *)
Definition typeof (v : value) : string :=
  match v with
  | VUndefined => "undefined"
  | VNull => "object"
  | VBool _ => "boolean"
  | VNumber _ => "number"
  | VString _ => "string"
  | VArray _ => "object"
  | VObject _ => "object"
  end.

(** [v === null] *)
Definition is_null (v : value) : bool :=
  match v with VNull => true | _ => false end.

(** [isNaN(n)] on a number. *)
Definition isNaN (n : spec_float) : bool :=
  match n with S754_nan => true | _ => false end.

(** Neither NaN nor an infinity. *)
Definition is_finite (n : spec_float) : bool :=
  match n with S754_zero _ | S754_finite _ _ _ => true | _ => false end.

(** ToBoolean: [!v] is [negb (truthy v)]. *)
Definition truthy (v : value) : bool :=
  match v with
  | VUndefined | VNull => false
  | VBool b => b
  | VNumber (S754_zero _) | VNumber S754_nan => false
  | VNumber _ => true
  | VString [] => false
  | VString (_ :: _) => true
  | VArray _ | VObject _ => true
  end.

(** [Array.isArray(v)] *)
Definition Array_isArray (v : value) : bool :=
  match v with VArray _ => true | _ => false end.

(** *** Array indices as property keys *)

Definition digit_of (c : Ascii.ascii) : option N :=
  let n := Ascii.N_of_ascii c in
  if (48 <=? n)%N && (n <=? 57)%N then Some (n - 48)%N else None.

Fixpoint parse_digits (s : string) (acc : N) : option N :=
  match s with
  | EmptyString => Some acc
  | String c rest =>
      match digit_of c with
      | Some d => parse_digits rest (10 * acc + d)%N
      | None => None
      end
  end.

(** The index a key names: a canonical decimal numeral (no leading zero). *)
Definition array_index (key : string) : option N :=
  match key with
  | EmptyString => None
  | String c rest =>
      if Ascii.eqb c "0"%char
      then (match rest with EmptyString => Some 0%N | _ => None end)
      else parse_digits key 0
  end.

(** [key in o].  Own properties only: an object has the keys of its map, an
    array has its indices and ["length"].  Properties inherited from
    [Object.prototype] and [Array.prototype] are left out; none of them
    bears a name the scripts ask for.  On a primitive [in] throws; the
    scripts apply it only after the [typeof] guard. *)
Definition js_in (key : string) (o : value) : bool :=
  match o with
  | VObject props => bool_decide (is_Some (props !! key))
  | VArray items =>
      String.eqb key "length" ||
      match array_index key with
      | Some i => (i <? N.of_nat (length items))%N
      | None => false
      end
  | _ => false
  end.

(** [o[key]], [undefined] where there is no such own property. *)
Definition get (o : value) (key : string) : value :=
  match o with
  | VObject props => default VUndefined (props !! key)
  | VArray items =>
      if String.eqb key "length" then VNumber (number_of_nat (length items))
      else match array_index key with
           | Some i => default VUndefined (items !! N.to_nat i)
           | None => VUndefined
           end
  | _ => VUndefined
  end.

(** *** [String.prototype.trim] *)

(** WhiteSpace and LineTerminator of ECMAScript. *)
Definition is_white_space (c : N) : bool :=
  ((9 <=? c) && (c <=? 13) (* TAB LF VT FF CR *)
   || (c =? 32) || (c =? 160) || (c =? 5760)
   || (8192 <=? c) && (c <=? 8202)
   || (c =? 8232) || (c =? 8233) || (c =? 8239) || (c =? 8287)
   || (c =? 12288) || (c =? 65279))%N.

Fixpoint trimStart (s : jsstring) : jsstring :=
  match s with
  | c :: rest => if is_white_space c then trimStart rest else s
  | [] => []
  end.

Definition trimEnd (s : jsstring) : jsstring := rev (trimStart (rev s)).

Definition trim (s : jsstring) : jsstring := trimEnd (trimStart s).

End Js.
Export Js.

(* ===================================================================== *)
(** ** Shape predicates shared by the scripts *)
(* ===================================================================== *)

(** [typeof value === 'string' && value.trim().length > 0] *)
Definition isNonEmptyString (v : value) : bool :=
  String.eqb (typeof v) "string" &&
  match v with
  | VString s => (0 <? length (trim s))%nat
  | _ => false
  end.

(** [typeof value === 'number' && !isNaN(value)] *)
Definition isNumber (v : value) : bool :=
  String.eqb (typeof v) "number" &&
  match v with
  | VNumber n => negb (isNaN n)
  | _ => false
  end.

(** [Array.isArray(value) && value.every(item => typeof item === 'string')] *)
Definition isStringArray (v : value) : bool :=
  Array_isArray v &&
  match v with
  | VArray items => forallb (fun item => String.eqb (typeof item) "string") items
  | _ => false
  end.

(** [typeof v !== 'object' || v === null], the guard that opens each
    validator. *)
Definition not_an_object (v : value) : bool :=
  negb (String.eqb (typeof v) "object") || is_null v.

(** [!(key in o) || !o[key] || typeof o[key] !== 'object' || o[key] === null] *)
Definition not_a_nested_object (key : string) (o : value) : bool :=
  negb (js_in key o) || negb (truthy (get o key))
  || negb (String.eqb (typeof (get o key)) "object") || is_null (get o key).

(** A [Set], given by the values it was built from. *)
Abbreviation js_set := (list value).

(** [v.length] of an array, a count of elements. *)
Definition Array_length (v : value) : nat :=
  match v with VArray items => length items | _ => 0 end.

(* ===================================================================== *)
(** ** The store of string arrays *)
(* ===================================================================== *)

Module Arrays.

(** [missingKeys] is a mutable array: the validator allocates it, pushes to
    it and returns a reference to it, which [main] keeps in [failures].  The
    store lists the string arrays allocated so far, oldest first; a
    reference is a position in it. *)
Definition ref := nat.
Abbreviation store := (list (list string)).

Definition Heap (A : Type) : Type := store → A * store.

#[export] Instance Heap_ret : MRet Heap := λ A (a : A) σ, (a, σ).
#[export] Instance Heap_bind : MBind Heap :=
  λ A B (k : A → Heap B) (c : Heap A) σ, let '(a, σ') := c σ in k a σ'.

(** [[...]] or [xs.map(k => k)]: a new array with the given elements. *)
Definition new_array (init : list string) : Heap ref :=
  λ σ, (length σ, σ ++ [init]).

(** [a.push(k)].  A reference always points into the store; [alter] leaves
    the store alone otherwise. *)
Definition push (a : ref) (k : string) : Heap unit :=
  λ σ, (tt, alter (λ l, l ++ [k]) a σ).

(** [a.includes(k)] *)
Definition includes (a : ref) (k : string) : Heap bool :=
  λ σ, (bool_decide (k ∈ σ !!! a), σ).

(** [a.length] *)
Definition array_length (a : ref) : Heap nat :=
  λ σ, (length (σ !!! a), σ).

(** [if (b) { c }] *)
Definition when (b : bool) (c : Heap unit) : Heap unit :=
  if b then c else mret tt.

(** [for (const x of xs) { body }] *)
Fixpoint for_of {A} (xs : list A) (body : A → Heap unit) : Heap unit :=
  match xs with
  | [] => mret tt
  | x :: rest => body x;; for_of rest body
  end.

(** [if (!a.includes(k)) { a.push(k) }] *)
Definition push_new (a : ref) (k : string) : Heap unit :=
  seen ← includes a k;
  when (negb seen) (push a k).

(** The array a computation returns, read in the store it leaves. *)
Definition returned (c : Heap ref) (σ : store) : list string :=
  let '(a, σ') := c σ in σ' !!! a.

End Arrays.
Export Arrays.

(* ===================================================================== *)
(** ** The running script *)
(* ===================================================================== *)

Module Process.

(** A template literal before it is rendered: its text, and the numbers and
    values interpolated into it. *)
Inductive piece : Type :=
  | Text (s : string)
  | Count (n : nat)
  | Interp (v : value).

(** What a script does to the outside, in order. *)
Inductive event : Type :=
  | WriteFile (path : string) (data : value)
  | ConsoleLog (line : list piece)
  | SetExitCode (code : nat).

(** The script's arrays and what it has done so far. *)
Record process : Type := {
  heap : store;
  trace : list event;
}.

Definition Proc (A : Type) : Type := process → A * process.

#[export] Instance Proc_ret : MRet Proc := λ A (a : A) p, (a, p).
#[export] Instance Proc_bind : MBind Proc :=
  λ A B (k : A → Proc B) (c : Proc A) p, let '(a, p') := c p in k a p'.

(** An array operation, run on the script's store. *)
Definition on_heap {A} (c : Heap A) : Proc A :=
  λ p, let '(a, σ) := c (heap p) in (a, {| heap := σ; trace := trace p |}).

Definition emit (e : event) : Proc unit :=
  λ p, (tt, {| heap := heap p; trace := trace p ++ [e] |}).

(** [writeFileSync(path, JSON.stringify(data, null, 2), 'utf-8')]: the
    document is kept as the value that is serialised. *)
Definition writeFileSync (path : string) (data : value) : Proc unit :=
  emit (WriteFile path data).

(** [console.log(`...`)] *)
Definition console_log (line : list piece) : Proc unit :=
  emit (ConsoleLog line).

(** [process.exitCode = code] *)
Definition set_exitCode (code : nat) : Proc unit :=
  emit (SetExitCode code).

(** [for (const x of xs) { body }], statements of the script. *)
Fixpoint for_each {A} (xs : list A) (body : A → Proc unit) : Proc unit :=
  match xs with
  | [] => mret tt
  | x :: rest => body x;; for_each rest body
  end.

(** [for (const x of xs) { body }] where the body may push to the local
    array [failures], which is threaded through the iterations. *)
Fixpoint for_pushing {A F} (xs : list A) (failures : list F)
    (body : A → list F → Proc (list F)) : Proc (list F) :=
  match xs with
  | [] => mret failures
  | x :: rest => failures' ← body x failures; for_pushing rest failures' body
  end.

(** One entry of [failures].  [fid] is [None] in the script whose entries
    have no [id] (verify-types); [fname] is [undefined] when no name was
    found. *)
Record Failure : Type := {
  fid : option value;
  fname : value;
  missingKeys : ref;
}.

(** A failure as [JSON.stringify] sees it when the report is written: the
    array behind [missingKeys] is read then, and a property that is
    [undefined] is left out. *)
Definition failure_json (f : Failure) : Proc value :=
  keys ← on_heap (λ σ, (σ !!! missingKeys f, σ));
  let o : gmap string value :=
    {[ "missingKeys" := VArray ((λ k, VString (utf16 k)) <$> keys) ]} in
  let o := match fname f with VUndefined => o | n => <["name" := n]> o end in
  let o := match fid f with None => o | Some i => <["id" := i]> o end in
  mret (VObject o).

Fixpoint failures_json (fs : list Failure) : Proc (list value) :=
  match fs with
  | [] => mret []
  | f :: rest =>
      v ← failure_json f; vs ← failures_json rest; mret (v :: vs)
  end.

(** [failure.missingKeys.join(', ')] *)
Definition join_missingKeys (f : Failure) : Proc string :=
  on_heap (λ σ, (String.concat ", " (σ !!! missingKeys f), σ)).

(** How a run ends: [main] returns, or an exception leaves it uncaught. *)
Inductive completion : Type := Returned | Uncaught.

(** The exit status: 1 after an uncaught exception, else the last value
    given to [process.exitCode], else 0. *)
Definition last_exitCode (t : list event) : option nat :=
  last (omap (λ e, match e with SetExitCode c => Some c | _ => None end) t).

Definition exit_status (c : completion) (p : process) : nat :=
  match c with
  | Uncaught => 1
  | Returned => default 0 (last_exitCode (trace p))
  end.

(** A script starts with an empty store and nothing done. *)
Definition start : process := {| heap := []; trace := [] |}.

(** [typeof r === 'object' && r !== null && 'name' in r &&
     typeof r.name === 'object' && r.name !== null && 'english' in r.name &&
     typeof r.name.english === 'string' ? r.name.english : undefined] *)
Definition english_name (r : value) : value :=
  if String.eqb (typeof r) "object" && negb (is_null r) && js_in "name" r
     && String.eqb (typeof (get r "name")) "object"
     && negb (is_null (get r "name")) && js_in "english" (get r "name")
     && String.eqb (typeof (get (get r "name") "english")) "string"
  then get (get r "name") "english"
  else VUndefined.

(** [typeof r === 'object' && r !== null && 'id' in r &&
     typeof r.id === ty ? r.id : 'unknown'] *)
Definition id_or_unknown (ty : string) (r : value) : value :=
  if String.eqb (typeof r) "object" && negb (is_null r) && js_in "id" r
     && String.eqb (typeof (get r "id")) ty
  then get r "id"
  else VString (utf16 "unknown").

Definition newline : string := String "010" EmptyString.

End Process.
Export Process.

(* ===================================================================== *)
(** ** scripts/verify-pokedex.ts *)
(* ===================================================================== *)

Module Pokedex.

Definition REQUIRED_POKEMON_KEYS : list string :=
  ["id"; "name"; "type"; "base"; "species"; "description"; "evolution"; "profile"].
Definition REQUIRED_NAME_KEYS : list string :=
  ["english"; "japanese"; "chinese"; "french"].
Definition REQUIRED_BASE_KEYS : list string :=
  ["HP"; "Attack"; "Defense"; "Sp. Attack"; "Sp. Defense"; "Speed"].
Definition REQUIRED_PROFILE_KEYS : list string :=
  ["height"; "weight"; "egg"; "ability"; "gender"].

Definition validatePokemon (pokemon : value) : Heap ref :=
  missingKeys ← new_array [];
  if not_an_object pokemon then new_array (map id REQUIRED_POKEMON_KEYS)
  else
    let p := pokemon in
    (* Check top-level required keys *)
    for_of REQUIRED_POKEMON_KEYS (λ key,
      when (negb (js_in key p)) (push missingKeys key));;
    (* Check id *)
    when (negb (js_in "id" p) || negb (isNumber (get p "id")))
      (push_new missingKeys "id");;
    (* Check name object and its required keys *)
    (if not_a_nested_object "name" p then push_new missingKeys "name"
     else
       let name := get p "name" in
       for_of REQUIRED_NAME_KEYS (λ key,
         when (negb (js_in key name) || negb (isNonEmptyString (get name key)))
           (push missingKeys ("name." +:+ key))));;
    (* Check type *)
    when (negb (js_in "type" p) || negb (isStringArray (get p "type"))
          || (Array_length (get p "type") =? 0)%nat)
      (push_new missingKeys "type");;
    (* Check base stats *)
    (if not_a_nested_object "base" p then push_new missingKeys "base"
     else
       let base := get p "base" in
       for_of REQUIRED_BASE_KEYS (λ key,
         when (negb (js_in key base) || negb (isNumber (get base key)))
           (push missingKeys ("base." +:+ key))));;
    (* Check species *)
    when (negb (js_in "species" p) || negb (isNonEmptyString (get p "species")))
      (push_new missingKeys "species");;
    (* Check description *)
    when (negb (js_in "description" p)
          || negb (isNonEmptyString (get p "description")))
      (push_new missingKeys "description");;
    (* Check evolution (must exist, but prev/next are optional) *)
    when (not_a_nested_object "evolution" p)
      (push_new missingKeys "evolution");;
    (* Check profile *)
    (if not_a_nested_object "profile" p then push_new missingKeys "profile"
     else
       let profile := get p "profile" in
       for_of REQUIRED_PROFILE_KEYS (λ key,
         when (negb (js_in key profile))
           (push missingKeys ("profile." +:+ key)));;
       when (negb (js_in "height" profile)
             || negb (isNonEmptyString (get profile "height")))
         (push_new missingKeys "profile.height");;
       when (negb (js_in "weight" profile)
             || negb (isNonEmptyString (get profile "weight")))
         (push_new missingKeys "profile.weight");;
       when (negb (js_in "egg" profile)
             || negb (isStringArray (get profile "egg")))
         (push_new missingKeys "profile.egg");;
       when (negb (js_in "ability" profile)
             || negb (Array_isArray (get profile "ability")))
         (push_new missingKeys "profile.ability");;
       when (negb (js_in "gender" profile)
             || negb (isNonEmptyString (get profile "gender")))
         (push_new missingKeys "profile.gender"));;
    mret missingKeys.

(** Paths are relative to the repository root. *)
Definition pokedexPath : string := "pokedex.json".
Definition outputPath : string := "scripts/pokedex-validation.json".

(** [main], given what [new Date().toISOString()] returns and the array
    read from [pokedexPath]. *)
Definition main (now : jsstring) (pokedex : list value) : Proc completion :=
  failures ← for_pushing pokedex [] (λ pokemon failures,
    missingKeys ← on_heap (validatePokemon pokemon);
    n ← on_heap (array_length missingKeys);
    if (0 <? n)%nat then
      let pokemonName := english_name pokemon in
      mret (failures ++ [{| fid := Some (id_or_unknown "number" pokemon);
                            fname := pokemonName;
                            missingKeys := missingKeys |}])
    else mret failures);
  (* Write results to JSON file *)
  failures_data ← failures_json failures;
  let results := VObject (list_to_map [
    ("timestamp", VString now);
    ("totalPokemon", VNumber (number_of_nat (length pokedex)));
    ("pokemonWithMissingKeys", VNumber (number_of_nat (length failures)));
    ("failures", VArray failures_data)]) in
  writeFileSync outputPath results;;
  if (length failures =? 0)%nat then
    console_log [Text "OK: "; Count (length pokedex);
                 Text " Pokémon validated"];;
    console_log [Text "Results written to: "; Text outputPath];;
    mret Returned
  else
    console_log [Text "Found "; Count (length failures);
                 Text " Pokémon with missing keys"];;
    console_log [Text "Results written to: "; Text outputPath; Text newline];;
    (* Also print summary to console *)
    for_each failures (λ failure,
      console_log ([Text "ID: "; Interp (default VUndefined (fid failure))]
                   ++ (if truthy (fname failure)
                       then [Text " ("; Interp (fname failure); Text ")"]
                       else [Text ""]));;
      keys ← join_missingKeys failure;
      console_log [Text "Missing keys: "; Text keys; Text newline]);;
    set_exitCode 1;;
    mret Returned.

End Pokedex.

(* ===================================================================== *)
(** ** scripts/verify-moves.ts *)
(* ===================================================================== *)

Module Moves.

Definition REQUIRED_MOVE_KEYS : list string :=
  ["id"; "name"; "type"; "category"; "pp"; "power"; "accuracy"].
Definition REQUIRED_NAME_KEYS : list string :=
  ["english"; "japanese"; "french"; "chinese"].

Definition validateMove (move : value) (allowedTypes : js_set) : Heap ref :=
  missingKeys ← new_array [];
  if not_an_object move then new_array (map id REQUIRED_MOVE_KEYS)
  else
    let m := move in
    (* Check top-level required keys *)
    for_of REQUIRED_MOVE_KEYS (λ key,
      when (negb (js_in key m)) (push missingKeys key));;
    (* Check if id exists and is valid *)
    when (negb (js_in "id" m) || negb (isNonEmptyString (get m "id")))
      (push_new missingKeys "id");;
    (* Check name object and its required keys *)
    (if not_a_nested_object "name" m then push_new missingKeys "name"
     else
       let name := get m "name" in
       for_of REQUIRED_NAME_KEYS (λ key,
         when (negb (js_in key name) || negb (isNonEmptyString (get name key)))
           (push missingKeys ("name." +:+ key))));;
    (* Check type *)
    when (negb (js_in "type" m) || negb (isNonEmptyString (get m "type")))
      (push_new missingKeys "type");;
    (* Check category *)
    when (negb (js_in "category" m)
          || negb (isNonEmptyString (get m "category")))
      (push_new missingKeys "category");;
    (* Check pp *)
    when (negb (js_in "pp" m) || negb (isNonEmptyString (get m "pp")))
      (push_new missingKeys "pp");;
    (* Check power *)
    when (negb (js_in "power" m) || negb (isNonEmptyString (get m "power")))
      (push_new missingKeys "power");;
    (* Check accuracy *)
    when (negb (js_in "accuracy" m)
          || negb (isNonEmptyString (get m "accuracy")))
      (push_new missingKeys "accuracy");;
    mret missingKeys.

(** Paths are relative to the repository root. *)
Definition movesPath : string := "moves.json".
Definition typesPath : string := "types.json".
Definition outputPath : string := "scripts/moves-validation.json".

(** [t.english] as [main] reads it from an entry of the type list: reading a
    property of [null] or [undefined] throws a TypeError. *)
Definition read_english (t : value) : option value :=
  match t with
  | VNull | VUndefined => None
  | _ => Some (get t "english")
  end.

(** [main], given what [new Date().toISOString()] returns and the arrays
    read from [movesPath] and [typesPath]. *)
Definition main (now : jsstring) (moves types : list value)
    : Proc completion :=
  match mapM read_english types with
  | None => mret Uncaught
  | Some allowedTypes =>
  failures ← for_pushing moves [] (λ move failures,
    missingKeys ← on_heap (validateMove move allowedTypes);
    n ← on_heap (array_length missingKeys);
    if (0 <? n)%nat then
      let moveName := english_name move in
      mret (failures ++ [{| fid := Some (id_or_unknown "string" move);
                            fname := moveName;
                            missingKeys := missingKeys |}])
    else mret failures);
  (* Write results to JSON file *)
  failures_data ← failures_json failures;
  let results := VObject (list_to_map [
    ("timestamp", VString now);
    ("totalMoves", VNumber (number_of_nat (length moves)));
    ("movesWithMissingKeys", VNumber (number_of_nat (length failures)));
    ("failures", VArray failures_data)]) in
  writeFileSync outputPath results;;
  if (length failures =? 0)%nat then
    console_log [Text "OK: "; Count (length moves); Text " moves validated"];;
    console_log [Text "Results written to: "; Text outputPath];;
    mret Returned
  else
    console_log [Text "Found "; Count (length failures);
                 Text " move(s) with missing keys"];;
    console_log [Text "Results written to: "; Text outputPath; Text newline];;
    (* Also print summary to console *)
    for_each failures (λ failure,
      console_log ([Text "ID: "; Interp (default VUndefined (fid failure))]
                   ++ (if truthy (fname failure)
                       then [Text " ("; Interp (fname failure); Text ")"]
                       else [Text ""]));;
      keys ← join_missingKeys failure;
      console_log [Text "Missing keys: "; Text keys; Text newline]);;
    set_exitCode 1;;
    mret Returned
  end.

End Moves.

(* ===================================================================== *)
(** ** scripts/verify-items.ts *)
(* ===================================================================== *)

Module Items.

Definition REQUIRED_ITEM_KEYS : list string :=
  ["id"; "name"; "type"; "description"].
Definition REQUIRED_NAME_KEYS : list string :=
  ["english"; "japanese"; "chinese"].

Definition validateItem (item : value) : Heap ref :=
  missingKeys ← new_array [];
  if not_an_object item then new_array (map id REQUIRED_ITEM_KEYS)
  else
    let i := item in
    (* Check top-level required keys *)
    for_of REQUIRED_ITEM_KEYS (λ key,
      when (negb (js_in key i)) (push missingKeys key));;
    (* Check id *)
    when (negb (js_in "id" i) || negb (isNumber (get i "id")))
      (push_new missingKeys "id");;
    (* Check name object and its required keys *)
    (if not_a_nested_object "name" i then push_new missingKeys "name"
     else
       let name := get i "name" in
       for_of REQUIRED_NAME_KEYS (λ key,
         when (negb (js_in key name) || negb (isNonEmptyString (get name key)))
           (push missingKeys ("name." +:+ key))));;
    (* Check type *)
    when (negb (js_in "type" i) || negb (isNonEmptyString (get i "type")))
      (push_new missingKeys "type");;
    (* Check description *)
    when (negb (js_in "description" i)
          || negb (isNonEmptyString (get i "description")))
      (push_new missingKeys "description");;
    mret missingKeys.

(** Paths are relative to the repository root. *)
Definition itemsPath : string := "items.json".
Definition outputPath : string := "scripts/items-validation.json".

(** [main], given what [new Date().toISOString()] returns and the array
    read from [itemsPath]. *)
Definition main (now : jsstring) (items : list value) : Proc completion :=
  failures ← for_pushing items [] (λ item failures,
    missingKeys ← on_heap (validateItem item);
    n ← on_heap (array_length missingKeys);
    if (0 <? n)%nat then
      let itemName := english_name item in
      mret (failures ++ [{| fid := Some (id_or_unknown "number" item);
                            fname := itemName;
                            missingKeys := missingKeys |}])
    else mret failures);
  (* Write results to JSON file *)
  failures_data ← failures_json failures;
  let results := VObject (list_to_map [
    ("timestamp", VString now);
    ("totalItems", VNumber (number_of_nat (length items)));
    ("itemsWithMissingKeys", VNumber (number_of_nat (length failures)));
    ("failures", VArray failures_data)]) in
  writeFileSync outputPath results;;
  if (length failures =? 0)%nat then
    console_log [Text "OK: "; Count (length items);
                 Text " items validated"];;
    console_log [Text "Results written to: "; Text outputPath];;
    mret Returned
  else
    console_log [Text "Found "; Count (length failures);
                 Text " item(s) with missing keys"];;
    console_log [Text "Results written to: "; Text outputPath; Text newline];;
    (* Also print summary to console *)
    for_each failures (λ failure,
      console_log ([Text "ID: "; Interp (default VUndefined (fid failure))]
                   ++ (if truthy (fname failure)
                       then [Text " ("; Interp (fname failure); Text ")"]
                       else [Text ""]));;
      keys ← join_missingKeys failure;
      console_log [Text "Missing keys: "; Text keys; Text newline]);;
    set_exitCode 1;;
    mret Returned.

End Items.

(* ===================================================================== *)
(** ** scripts/verify-types.ts *)
(* ===================================================================== *)

Module Types.

Definition REQUIRED_TYPE_KEYS : list string :=
  ["english"; "chinese"; "japanese"; "effective"; "ineffective"; "no_effect"].

Definition validateType (type : value) : Heap ref :=
  missingKeys ← new_array [];
  if not_an_object type then new_array (map id REQUIRED_TYPE_KEYS)
  else
    let t := type in
    (* Check top-level required keys *)
    for_of REQUIRED_TYPE_KEYS (λ key,
      when (negb (js_in key t)) (push missingKeys key));;
    (* Check english *)
    when (negb (js_in "english" t)
          || negb (isNonEmptyString (get t "english")))
      (push_new missingKeys "english");;
    (* Check chinese *)
    when (negb (js_in "chinese" t)
          || negb (isNonEmptyString (get t "chinese")))
      (push_new missingKeys "chinese");;
    (* Check japanese *)
    when (negb (js_in "japanese" t)
          || negb (isNonEmptyString (get t "japanese")))
      (push_new missingKeys "japanese");;
    (* Check effective *)
    when (negb (js_in "effective" t)
          || negb (isStringArray (get t "effective")))
      (push_new missingKeys "effective");;
    (* Check ineffective *)
    when (negb (js_in "ineffective" t)
          || negb (isStringArray (get t "ineffective")))
      (push_new missingKeys "ineffective");;
    (* Check no_effect *)
    when (negb (js_in "no_effect" t)
          || negb (isStringArray (get t "no_effect")))
      (push_new missingKeys "no_effect");;
    mret missingKeys.

(** Paths are relative to the repository root. *)
Definition typesPath : string := "types.json".
Definition outputPath : string := "scripts/types-validation.json".

(** [main], given what [new Date().toISOString()] returns and the array
    read from [typesPath]. *)
Definition main (now : jsstring) (types : list value) : Proc completion :=
  failures ← for_pushing types [] (λ type failures,
    missingKeys ← on_heap (validateType type);
    n ← on_heap (array_length missingKeys);
    if (0 <? n)%nat then
      mret (failures ++ [{|
        fid := None;
        fname :=
          if String.eqb (typeof type) "object" && negb (is_null type)
             && js_in "english" type
             && String.eqb (typeof (get type "english")) "string"
          then get type "english" else VUndefined;
        missingKeys := missingKeys |}])
    else mret failures);
  (* Write results to JSON file *)
  failures_data ← failures_json failures;
  let results := VObject (list_to_map [
    ("timestamp", VString now);
    ("totalTypes", VNumber (number_of_nat (length types)));
    ("typesWithMissingKeys", VNumber (number_of_nat (length failures)));
    ("failures", VArray failures_data)]) in
  writeFileSync outputPath results;;
  if (length failures =? 0)%nat then
    console_log [Text "OK: "; Count (length types); Text " types validated"];;
    console_log [Text "Results written to: "; Text outputPath];;
    mret Returned
  else
    console_log [Text "Found "; Count (length failures);
                 Text " type(s) with missing keys"];;
    console_log [Text "Results written to: "; Text outputPath; Text newline];;
    (* Also print summary to console *)
    for_each failures (λ failure,
      console_log (if truthy (fname failure)
                   then [Text "Type: "; Interp (fname failure)]
                   else [Text "Unknown type"]);;
      keys ← join_missingKeys failure;
      console_log [Text "Missing keys: "; Text keys; Text newline]);;
    set_exitCode 1;;
    mret Returned.

End Types.


Export Pokedex Moves Items Types.

(* ===================================================================== *)
(** ** The data model *)
(* ===================================================================== *)

(** The record shapes as the specification words them, independently of the
    validators: which fields a record has and what each one holds. *)
Module DataModel.

(** A string that is non-empty after trimming. *)
Definition text (v : value) : bool :=
  match v with
  | VString s => negb (bool_decide (trim s = []))
  | _ => false
  end.

(** A finite number. *)
Definition finite_number (v : value) : bool :=
  match v with VNumber n => is_finite n | _ => false end.

Definition is_string (v : value) : bool :=
  match v with VString _ => true | _ => false end.

(** An array of strings. *)
Definition strings (v : value) : bool :=
  match v with VArray items => forallb is_string items | _ => false end.

(** A non-empty array of strings. *)
Definition some_strings (v : value) : bool :=
  match v with
  | VArray (item :: items) => forallb is_string (item :: items)
  | _ => false
  end.

(** An array, whatever it holds. *)
Definition array (v : value) : bool :=
  match v with VArray _ => true | _ => false end.

(** An object (not an array, not [null]). *)
Definition object (v : value) : bool :=
  match v with VObject _ => true | _ => false end.

(** The object [o] has the field [key], of the given shape. *)
Definition has (o : value) (key : string) (shape : value → bool) : bool :=
  match o with
  | VObject props =>
      match props !! key with Some v => shape v | None => false end
  | _ => false
  end.

(** The object [o] has no field [key]. *)
Definition lacks (o : value) (key : string) : bool :=
  match o with
  | VObject props => bool_decide (props !! key = None)
  | _ => false
  end.

(** A localized name: a text for each language. *)
Definition localized (languages : list string) (v : value) : bool :=
  object v && forallb (λ language, has v language text) languages.

(** Six numeric base stats. *)
Definition base_stats (v : value) : bool :=
  object v
  && forallb (λ stat, has v stat finite_number)
       ["HP"; "Attack"; "Defense"; "Sp. Attack"; "Sp. Defense"; "Speed"].

(** Height, weight, egg groups, abilities, gender ratio. *)
Definition profile (v : value) : bool :=
  object v && has v "height" text && has v "weight" text
  && has v "egg" strings && has v "ability" array && has v "gender" text.

(** A Pokémon record whose base stats and profile have the given shapes. *)
Definition pokemon_with (base_shape profile_shape : value → bool)
    (v : value) : bool :=
  object v && has v "id" finite_number
  && has v "name" (localized ["english"; "japanese"; "chinese"; "french"])
  && has v "type" some_strings && has v "base" base_shape
  && has v "species" text && has v "description" text
  && has v "evolution" object && has v "profile" profile_shape.

Definition pokemon_record : value → bool := pokemon_with base_stats profile.

Definition move_record (v : value) : bool :=
  object v && has v "id" text
  && has v "name" (localized ["english"; "japanese"; "french"; "chinese"])
  && has v "type" text && has v "category" text && has v "pp" text
  && has v "power" text && has v "accuracy" text.

Definition item_record (v : value) : bool :=
  object v && has v "id" finite_number
  && has v "name" (localized ["english"; "japanese"; "chinese"])
  && has v "type" text && has v "description" text.

Definition type_record (v : value) : bool :=
  object v && has v "english" text && has v "chinese" text
  && has v "japanese" text && has v "effective" strings
  && has v "ineffective" strings && has v "no_effect" strings.

(** Base stats that are as they should be, but for [Speed], a string. *)
Definition base_stats_with_string_speed (v : value) : bool :=
  object v
  && forallb (λ stat, has v stat finite_number)
       ["HP"; "Attack"; "Defense"; "Sp. Attack"; "Sp. Defense"]
  && has v "Speed" is_string.

(** A profile that is as it should be, but without [gender]. *)
Definition profile_without_gender (v : value) : bool :=
  object v && has v "height" text && has v "weight" text
  && has v "egg" strings && has v "ability" array && lacks v "gender".

(** The categories a move declares ([types/moves.ts]). *)
Definition declared_categories : list jsstring :=
  [utf16 "Physical"; utf16 "Special"; utf16 "Status"; utf16 "???"].

End DataModel.

(** Sample records. *)
Module Samples.

Definition obj (fields : list (string * value)) : value :=
  VObject (list_to_map fields).
Definition str (s : string) : value := VString (utf16 s).
Definition num (n : nat) : value := VNumber (number_of_nat n).

Definition bulbasaur_name : value :=
  obj [("english", str "Bulbasaur"); ("japanese", str "Fushigidane");
       ("chinese", str "Miao Wa Zhong Zi"); ("french", str "Bulbizarre")].

Definition bulbasaur_base (speed : value) : value :=
  obj [("HP", num 45); ("Attack", num 49); ("Defense", num 49);
       ("Sp. Attack", num 65); ("Sp. Defense", num 65); ("Speed", speed)].

Definition bulbasaur_profile (gender : list (string * value)) : value :=
  obj ([("height", str "0.7 m"); ("weight", str "6.9 kg");
        ("egg", VArray [str "Monster"; str "Grass"]);
        ("ability", VArray [VArray [str "Overgrow"; str "false"];
                            VArray [str "Chlorophyll"; str "true"]])]
       ++ gender).

Definition bulbasaur_like (types base profile : value) : value :=
  obj [("id", num 1); ("name", bulbasaur_name); ("type", types);
       ("base", base); ("species", str "Seed Pokemon");
       ("description", str "A strange seed was planted on its back.");
       ("evolution", obj [("next", VArray [VArray [str "2"; str "Level 16"]])]);
       ("profile", profile)].

Definition grass_poison : value := VArray [str "Grass"; str "Poison"].

Definition bulbasaur : value :=
  bulbasaur_like grass_poison (bulbasaur_base (num 45))
    (bulbasaur_profile [("gender", str "87.5:12.5")]).

(** [bulbasaur] with [base.Speed] a string and no [profile.gender]. *)
Definition bulbasaur_scenario1 : value :=
  bulbasaur_like grass_poison (bulbasaur_base (str "45"))
    (bulbasaur_profile []).

(** [bulbasaur] with the array [ability] in its profile. *)
Definition bulbasaur_with_ability (ability : value) : value :=
  bulbasaur_like grass_poison (bulbasaur_base (num 45))
    (obj [("height", str "0.7 m"); ("weight", str "6.9 kg");
          ("egg", VArray [str "Monster"; str "Grass"]);
          ("ability", ability); ("gender", str "87.5:12.5")]).

Definition pound_with (category power : value) : value :=
  obj [("id", str "1");
       ("name", obj [("english", str "Pound"); ("japanese", str "Hataku");
                     ("french", str "Ecras'Face"); ("chinese", str "Pai Ji")]);
       ("type", str "Normal"); ("category", category); ("pp", str "35");
       ("power", power); ("accuracy", str "100")].

Definition pound : value := pound_with (str "Physical") (str "40").



Definition master_ball : value :=
  obj [("id", num 1);
       ("name", obj [("english", str "Master Ball");
                     ("japanese", str "Masutaboru");
                     ("chinese", str "Da Shi Qiu")]);
       ("type", str "Pokeballs"); ("description", str "The best Ball.")].

Definition normal_type : value :=
  obj [("english", str "Normal"); ("chinese", str "Yi Ban");
       ("japanese", str "Nomaru"); ("effective", VArray []);
       ("ineffective", VArray [str "Rock"; str "Steel"]);
       ("no_effect", VArray [str "Ghost"])].

End Samples.

(* ===================================================================== *)
(** ** What a validator does to its array *)
(* ===================================================================== *)

Module Effects.

(** [if (b) { a.push(k) }], as a function on the contents of [a]. *)
Definition step (b : bool) (k : string) (l : list string) : list string :=
  if b then l ++ [k] else l.

(** [if (b) { if (!a.includes(k)) { a.push(k) } }], likewise. *)
Definition step_new (b : bool) (k : string) (l : list string) : list string :=
  if b && negb (bool_decide (k ∈ l)) then l ++ [k] else l.

(** Simulation: a computation that only touches the array [a] does, in any
    store, what its copy for the array [0] does in the store that holds that
    array alone.  [R] relates what the two return. *)
Definition sim (a : ref) {A} (R : A → A → Prop) (c c0 : Heap A) : Prop :=
  ∀ l : list string, ∃ (x0 : A) (l' : list string),
    c0 [l] = (x0, [l']) ∧
    ∀ σ1 σ2 : store, length σ1 = a →
      ∃ x, R x x0 ∧ c (σ1 ++ l :: σ2) = (x, σ1 ++ l' :: σ2).

(** Relocation: run in any store, a computation allocates what it allocates
    in the empty store, behind the arrays that are already there, and
    returns one of the arrays it allocated. *)
Definition relocatable (c : Heap ref) : Prop :=
  (c []).1 < length (c []).2 ∧
  ∀ σ : store, c σ = (length σ + (c []).1, σ ++ (c []).2).

(** Running [c] twice in a row: each run returns an array of its own; the
    array of the second run holds what the array of the first run held,
    which the second run left as it was. *)
Definition same_twice (c : Heap ref) (σ : store) : Prop :=
  let '(a1, σ1) := c σ in
  let '(a2, σ2) := c σ1 in
  a1 < length σ1 ∧ a1 < a2 < length σ2 ∧
  σ2 !!! a2 = σ1 !!! a1 ∧ σ2 !!! a1 = σ1 !!! a1.

(** The names a list of failures may hold so far, none twice. *)
Definition fresh_within (U l : list string) : Prop := NoDup l ∧ l ⊆ U.

(** The record [r] fails the validator. *)
Definition fails (validate : value → Heap ref) (r : value) : bool :=
  negb (bool_decide (returned (validate r) [] = [])).

(** The report comes first and once: the first thing the script does is to
    write [path], and it writes no file after that. *)
Definition report_written_first (path : string) (t : list event) : Prop :=
  ∃ data rest, t = WriteFile path data :: rest ∧
    ∀ e, e ∈ rest → ∀ path' data', e ≠ WriteFile path' data'.

(** What console output is. *)
Definition is_log (e : event) : Prop := ∃ line, e = ConsoleLog line.

(** How a run of a script must end, for the records it was given: it
    returns; the report came first; the exit status is 0 exactly when no
    record fails and 1 exactly when some record does. *)
Definition reports_and_exits (path : string) (validate : value → Heap ref)
    (records : list value) (run : completion * process) : Prop :=
  let '(c, p) := run in
  c = Returned ∧
  report_written_first path (trace p) ∧
  (exit_status c p = 0 ↔ Forall (λ r, fails validate r = false) records) ∧
  (exit_status c p = 1 ↔ Exists (λ r, fails validate r = true) records).

End Effects.
Export Effects.

(* ===================================================================== *)
(** ** What the validators report, field by field *)
(* ===================================================================== *)

(** For each validator, the names it can report and, for a record, whether
    each one is reported: a top-level field when the record is not an object
    with that field in the accepted shape; a sub-field when its container is
    there and lacks it in the accepted shape.  The accepted shapes are those
    of [DataModel] but for numbers (any but NaN) and containers (any object
    or array). *)
Module Reported.
Import DataModel.

(** A number that is not NaN. *)
Definition number (v : value) : bool :=
  match v with VNumber n => negb (isNaN n) | _ => false end.

(** An object or an array. *)
Definition container (v : value) : bool :=
  match v with VObject _ | VArray _ => true | _ => false end.

(** A top-level field and whether it is reported. *)
Definition top (r : value) (key : string) (shape : value → bool)
    : string * bool :=
  (key, negb (has r key shape)).

(** A sub-field, under its dotted name, and whether it is reported. *)
Definition sub (r : value) (parent key : string) (shape : value → bool)
    : string * bool :=
  (parent +:+ "." +:+ key,
   has r parent container && negb (has (get r parent) key shape)).

Definition pokemon_fields (r : value) : list (string * bool) :=
  [top r "id" number;
   top r "name" container;
   sub r "name" "english" text; sub r "name" "japanese" text;
   sub r "name" "chinese" text; sub r "name" "french" text;
   top r "type" some_strings;
   top r "base" container;
   sub r "base" "HP" number; sub r "base" "Attack" number;
   sub r "base" "Defense" number; sub r "base" "Sp. Attack" number;
   sub r "base" "Sp. Defense" number; sub r "base" "Speed" number;
   top r "species" text;
   top r "description" text;
   top r "evolution" container;
   top r "profile" container;
   sub r "profile" "height" text; sub r "profile" "weight" text;
   sub r "profile" "egg" strings; sub r "profile" "ability" array;
   sub r "profile" "gender" text].

Definition move_fields (r : value) : list (string * bool) :=
  [top r "id" text;
   top r "name" container;
   sub r "name" "english" text; sub r "name" "japanese" text;
   sub r "name" "french" text; sub r "name" "chinese" text;
   top r "type" text; top r "category" text; top r "pp" text;
   top r "power" text; top r "accuracy" text].

Definition item_fields (r : value) : list (string * bool) :=
  [top r "id" number;
   top r "name" container;
   sub r "name" "english" text; sub r "name" "japanese" text;
   sub r "name" "chinese" text;
   top r "type" text; top r "description" text].

(** A name that is no property of an array. *)
Definition no_array_key (key : string) : Prop :=
  ∀ items, js_in key (VArray items) = false.

Definition type_fields (r : value) : list (string * bool) :=
  [top r "english" text; top r "chinese" text; top r "japanese" text;
   top r "effective" strings; top r "ineffective" strings;
   top r "no_effect" strings].

End Reported.

(** The records a validator passes: each top-level field is there in its
    accepted shape, and so is each sub-field of [name], [base] and
    [profile]. *)
Module Accepted.
Import DataModel Reported.

Definition pokemon (r : value) : bool :=
  has r "id" number
  && has r "name" container
  && has (get r "name") "english" text && has (get r "name") "japanese" text
  && has (get r "name") "chinese" text && has (get r "name") "french" text
  && has r "type" some_strings
  && has r "base" container
  && has (get r "base") "HP" number && has (get r "base") "Attack" number
  && has (get r "base") "Defense" number
  && has (get r "base") "Sp. Attack" number
  && has (get r "base") "Sp. Defense" number
  && has (get r "base") "Speed" number
  && has r "species" text && has r "description" text
  && has r "evolution" container
  && has r "profile" container
  && has (get r "profile") "height" text
  && has (get r "profile") "weight" text
  && has (get r "profile") "egg" strings
  && has (get r "profile") "ability" array
  && has (get r "profile") "gender" text.

Definition move (r : value) : bool :=
  has r "id" text
  && has r "name" container
  && has (get r "name") "english" text && has (get r "name") "japanese" text
  && has (get r "name") "french" text && has (get r "name") "chinese" text
  && has r "type" text && has r "category" text && has r "pp" text
  && has r "power" text && has r "accuracy" text.

Definition item (r : value) : bool :=
  has r "id" number
  && has r "name" container
  && has (get r "name") "english" text && has (get r "name") "japanese" text
  && has (get r "name") "chinese" text
  && has r "type" text && has r "description" text.

Definition type (r : value) : bool :=
  has r "english" text && has r "chinese" text && has r "japanese" text
  && has r "effective" strings && has r "ineffective" strings
  && has r "no_effect" strings.

End Accepted.

(** What a script reports. *)
Module Report.

(** The records that fail, in the order of the data set. *)
Definition failing (validate : value → Heap ref) (records : list value)
    : list value :=
  List.filter (fails validate) records.

(** A failure as it stands in the report: the identifier if the script
    gives one, the name if one was found, the names of the failing fields. *)
Definition failure_value (fid : option value) (fname : value)
    (keys : list string) : value :=
  let o : gmap string value :=
    {[ "missingKeys" := VArray ((λ k, VString (utf16 k)) <$> keys) ]} in
  let o := match fname with VUndefined => o | n => <["name" := n]> o end in
  let o := match fid with None => o | Some i => <["id" := i]> o end in
  VObject o.

(** The report: when it was made, how many records there are, how many of
    them fail, and the failures. *)
Definition report (total_key failing_key : string) (now : jsstring)
    (total : nat) (failures : list value) : value :=
  VObject (list_to_map [
    ("timestamp", VString now);
    (total_key, VNumber (number_of_nat total));
    (failing_key, VNumber (number_of_nat (length failures)));
    ("failures", VArray failures)]).

(** The name a failing type is reported under. *)
Definition type_name (type : value) : value :=
  if String.eqb (typeof type) "object" && negb (is_null type)
     && js_in "english" type
     && String.eqb (typeof (get type "english")) "string"
  then get type "english" else VUndefined.

(** What a script does, for the failures it reports: the report, two lines
    of summary and two lines for each failure, then the exit code 1 if there
    is a failure. *)
Definition reports (path : string) (data : value) (failures : nat)
    (run : completion * process) : Prop :=
  let '(c, p) := run in
  c = Returned ∧
  ∃ logs,
    trace p = WriteFile path data :: logs
                ++ (if (failures =? 0)%nat then [] else [SetExitCode 1]) ∧
    Forall is_log logs ∧ length logs = 2 + 2 * failures.

End Report.

(* ===================================================================== *)
(** ** The declared record types *)
(* ===================================================================== *)

(** The interfaces of [types/pokedex.ts], [types/moves.ts] and
    [types/items.ts], and what it is for a value to have one of them. *)
Module Interfaces.

Inductive ty : Type :=
  | TString
  | TNumber
  | TOneOf (literals : list jsstring)
  | TArrayOf (item : ty)
  | TTuple (items : list ty)
  | TInterface (properties : list (string * bool * ty)).

(** [has_type t v]: the value [v] is of the type [t].  A property marked
    [true] is optional: it may be absent or [undefined]. *)
Fixpoint has_type (t : ty) (v : value) {struct t} : bool :=
  match t with
  | TString => match v with VString _ => true | _ => false end
  | TNumber => match v with VNumber _ => true | _ => false end
  | TOneOf literals =>
      match v with VString s => bool_decide (s ∈ literals) | _ => false end
  | TArrayOf item =>
      match v with VArray vs => forallb (has_type item) vs | _ => false end
  | TTuple items =>
      match v with
      | VArray vs =>
          (fix all (ts : list ty) (vs : list value) : bool :=
             match ts, vs with
             | [], [] => true
             | t :: ts, v :: vs => has_type t v && all ts vs
             | _, _ => false
             end) items vs
      | _ => false
      end
  | TInterface properties =>
      match v with
      | VObject props =>
          (fix all (ps : list (string * bool * ty)) : bool :=
             match ps with
             | [] => true
             | (key, optional, t) :: ps =>
                 match props !! key with
                 | Some VUndefined => optional
                 | Some x => has_type t x
                 | None => optional
                 end && all ps
             end) properties
      | _ => false
      end
  end.

Definition required (key : string) (t : ty) : string * bool * ty :=
  (key, false, t).
Definition optional (key : string) (t : ty) : string * bool * ty :=
  (key, true, t).

Definition PokemonName : ty :=
  TInterface [required "english" TString; required "japanese" TString;
              required "chinese" TString; required "french" TString].

Definition BaseStats : ty :=
  TInterface [required "HP" TNumber; required "Attack" TNumber;
              required "Defense" TNumber; required "Sp. Attack" TNumber;
              required "Sp. Defense" TNumber; required "Speed" TNumber].

Definition Evolution : ty :=
  TInterface [optional "prev" (TTuple [TString; TString]);
              optional "next" (TArrayOf (TTuple [TString; TString]))].

Definition Abilities : ty := TArrayOf (TTuple [TString; TString]).

Definition Profile : ty :=
  TInterface [required "height" TString; required "weight" TString;
              required "egg" (TArrayOf TString); required "ability" Abilities;
              required "gender" TString].

Definition Pokemon : ty :=
  TInterface [required "id" TNumber; required "name" PokemonName;
              required "type" (TArrayOf TString); required "base" BaseStats;
              required "species" TString; required "description" TString;
              required "evolution" Evolution; required "profile" Profile].

Definition MoveName : ty :=
  TInterface [required "english" TString; required "japanese" TString;
              required "french" TString; required "chinese" TString].

Definition Move : ty :=
  TInterface [required "id" TString; required "name" MoveName;
              required "type" TString;
              required "category" (TOneOf DataModel.declared_categories);
              required "pp" TString; required "power" TString;
              required "accuracy" TString].

Definition ItemName : ty :=
  TInterface [required "english" TString; required "japanese" TString;
              required "chinese" TString].

Definition Item : ty :=
  TInterface [required "id" TNumber; required "name" ItemName;
              required "type" TString; required "description" TString].

End Interfaces.

(* ===================================================================== *)
(** ** Reasoning about array computations *)
(* ===================================================================== *)

Module HeapLogic.

Lemma alter_middle {A} (f : A → A) (σ1 σ2 : list A) (x : A) :
  alter f (length σ1) (σ1 ++ x :: σ2) = σ1 ++ f x :: σ2.
Proof. induction σ1 as [|y σ1 IH]; simpl; [done | by f_equal]. Qed.

Lemma push_middle (σ1 σ2 : store) (l : list string) (k : string) :
  push (length σ1) k (σ1 ++ l :: σ2) = (tt, σ1 ++ (l ++ [k]) :: σ2).
Proof. unfold push. by rewrite alter_middle. Qed.

Lemma includes_middle (σ1 σ2 : store) (l : list string) (k : string) :
  includes (length σ1) k (σ1 ++ l :: σ2)
  = (bool_decide (k ∈ l), σ1 ++ l :: σ2).
Proof. unfold includes. by rewrite list_lookup_total_middle. Qed.

(** *** Simulation rules, one per construct *)

Lemma sim_ret a {A} (R : A → A → Prop) (x x0 : A) :
  R x x0 → sim a R (mret x) (mret x0).
Proof. intros HR l. exists x0, l. split; [done|]. intros. by exists x. Qed.

Lemma sim_bind a {A B} (R : B → B → Prop) (c c0 : Heap A) (k k0 : A → Heap B) :
  sim a eq c c0 →
  (∀ x, sim a R (k x) (k0 x)) →
  sim a R (c ≫= k) (c0 ≫= k0).
Proof.
  intros Hc Hk l.
  destruct (Hc l) as (x0 & l1 & Hc0 & Hc1).
  destruct (Hk x0 l1) as (y0 & l2 & Hk0 & Hk1).
  exists y0, l2. split.
  - unfold mbind, Heap_bind. by rewrite Hc0.
  - intros σ1 σ2 Ha.
    destruct (Hc1 σ1 σ2 Ha) as (x & -> & Hx).
    destruct (Hk1 σ1 σ2 Ha) as (y & HR & Hy).
    exists y. split; [done|].
    unfold mbind, Heap_bind. by rewrite Hx.
Qed.

Lemma sim_push a (k : string) : sim a eq (push a k) (push 0 k).
Proof.
  intros l. exists tt, (l ++ [k]). split; [done|].
  intros σ1 σ2 <-. exists tt. by rewrite push_middle.
Qed.

Lemma sim_includes a (k : string) : sim a eq (includes a k) (includes 0 k).
Proof.
  intros l. exists (bool_decide (k ∈ l)), l. split; [done|].
  intros σ1 σ2 <-. eexists. by rewrite includes_middle.
Qed.

Lemma sim_when a (b : bool) (c c0 : Heap unit) :
  sim a eq c c0 → sim a eq (when b c) (when b c0).
Proof. destruct b; [done|]. intros _. by apply sim_ret. Qed.

Lemma sim_if a {A} (R : A → A → Prop) (b : bool) (c1 c2 c1' c2' : Heap A) :
  sim a R c1 c1' → sim a R c2 c2' →
  sim a R (if b then c1 else c2) (if b then c1' else c2').
Proof. by destruct b. Qed.

Lemma sim_for_of a {X} (xs : list X) (body body0 : X → Heap unit) :
  (∀ x, sim a eq (body x) (body0 x)) →
  sim a eq (for_of xs body) (for_of xs body0).
Proof.
  intros Hb. induction xs as [|x xs IH]; simpl.
  - by apply sim_ret.
  - apply sim_bind; [apply Hb | intros _; apply IH].
Qed.

Lemma sim_push_new a (k : string) : sim a eq (push_new a k) (push_new 0 k).
Proof.
  apply sim_bind; [apply sim_includes|].
  intros seen. apply sim_when, sim_push.
Qed.

(** Walks down the statements of a validator. *)
Ltac sim_steps :=
  repeat first
    [ apply sim_push_new | apply sim_push | apply sim_includes
    | apply sim_ret; done
    | apply sim_when | apply sim_for_of; intros ?
    | apply sim_if
    | apply sim_bind; [|intros ?] ].

(** *** Relocation *)

Lemma relocatable_validator (g : bool) (init : list string)
    (body : ref → Heap ref) :
  (∀ a, sim a (λ x x0, x = a ∧ x0 = 0) (body a) (body 0)) →
  relocatable (a ← new_array []; if g then new_array init else body a).
Proof.
  intros Hsim. unfold relocatable, mbind, Heap_bind, new_array. simpl.
  destruct g.
  - split; [simpl; lia|]. intros σ.
    by rewrite length_app, <- (assoc_L (++)).
  - destruct (Hsim 0 []) as (x0 & l' & H0 & H1).
    destruct (H1 [] [] eq_refl) as (x & [-> ->] & _).
    rewrite H0. split; [simpl; lia|]. intros σ.
    destruct (Hsim (length σ) []) as (y0 & l'' & H0' & H2).
    rewrite H0 in H0'. injection H0' as <- <-.
    destruct (H2 σ [] eq_refl) as (x & [-> _] & Hx).
    rewrite Hx. simpl. by rewrite Nat.add_0_r.
Qed.

Lemma returned_relocatable (c : Heap ref) (σ : store) :
  relocatable c → returned c σ = returned c [].
Proof.
  intros [_ Hc]. unfold returned. rewrite (Hc σ).
  destruct (c []) as [a σ']. simpl.
  rewrite lookup_total_app_r by lia. f_equal. lia.
Qed.

(** Running twice: the second run allocates behind the first, leaves the
    array of the first as it was, and returns an array with the same
    contents. *)
Lemma relocatable_twice (c : Heap ref) (σ : store) :
  relocatable c →
  let '(a1, σ1) := c σ in
  let '(a2, σ2) := c σ1 in
  a1 < length σ1 ∧ a1 < a2 < length σ2 ∧
  σ1 !!! a1 = returned c [] ∧ σ2 !!! a1 = returned c [] ∧
  σ2 !!! a2 = returned c [].
Proof.
  intros [Hlt Hc]. unfold returned.
  rewrite (Hc σ), (Hc (σ ++ (c []).2)).
  destruct (c []) as [a σ']. simpl in *.
  rewrite !length_app. split_and!; try lia.
  - rewrite lookup_total_app_r by lia. f_equal. lia.
  - rewrite <- (assoc_L (++)), lookup_total_app_r by lia.
    rewrite lookup_total_app_l by lia. f_equal. lia.
  - rewrite lookup_total_app_r by (rewrite length_app; lia).
    rewrite length_app. f_equal. lia.
Qed.

End HeapLogic.
Import HeapLogic.

Lemma validatePokemon_relocatable (pokemon : value) :
  relocatable (validatePokemon pokemon).
Proof.
  unfold validatePokemon. apply relocatable_validator. intros a. cbv zeta.
  sim_steps.
Qed.

Lemma validateMove_relocatable (move : value) (allowedTypes : js_set) :
  relocatable (validateMove move allowedTypes).
Proof.
  unfold validateMove. apply relocatable_validator. intros a. cbv zeta.
  sim_steps.
Qed.

Lemma validateItem_relocatable (item : value) :
  relocatable (validateItem item).
Proof.
  unfold validateItem. apply relocatable_validator. intros a. cbv zeta.
  sim_steps.
Qed.

Lemma validateType_relocatable (type : value) :
  relocatable (validateType type).
Proof.
  unfold validateType. apply relocatable_validator. intros a. cbv zeta.
  sim_steps.
Qed.

(* ===================================================================== *)
(** ** A validator's run on its own array *)
(* ===================================================================== *)

Module Run.

#[global] Arguments step : simpl never.
#[global] Arguments step_new : simpl never.

Lemma run_new_array {A} (init : list string) (k : ref → Heap A) :
  (new_array init ≫= k) [] = k 0 [init].
Proof. done. Qed.

Lemma run_when_push {A} b k (rest : Heap A) l :
  (when b (push 0 k);; rest) [l] = rest [step b k l].
Proof. by destruct b. Qed.

Lemma run_when_push_new {A} b k (rest : Heap A) l :
  (when b (push_new 0 k);; rest) [l] = rest [step_new b k l].
Proof.
  unfold step_new. destruct b; [|done]. simpl.
  unfold push_new, mbind, Heap_bind, includes. simpl. by case_bool_decide.
Qed.

Lemma run_push_new {A} k (rest : Heap A) l :
  (push_new 0 k;; rest) [l] = rest [step_new true k l].
Proof. apply (run_when_push_new true). Qed.

Lemma run_assoc {A B C} (c1 : Heap A) (c2 : A → Heap B) (rest : B → Heap C) σ :
  ((c1 ≫= c2) ≫= rest) σ = (c1 ≫= λ x, c2 x ≫= rest) σ.
Proof. unfold mbind, Heap_bind. by destruct (c1 σ). Qed.

Lemma run_ret {A B} (x : A) (rest : A → Heap B) σ :
  (mret x ≫= rest) σ = rest x σ.
Proof. done. Qed.

Lemma run_done (l : list string) :
  (let '(a, σ') := (mret 0 : Heap ref) [l] in σ' !!! a) = l.
Proof. done. Qed.

(** Unfolds the loops over the [REQUIRED_*] tables. *)
Ltac unroll :=
  cbv zeta;
  unfold REQUIRED_POKEMON_KEYS, Pokedex.REQUIRED_NAME_KEYS, REQUIRED_BASE_KEYS,
    REQUIRED_PROFILE_KEYS, REQUIRED_MOVE_KEYS, Moves.REQUIRED_NAME_KEYS,
    REQUIRED_ITEM_KEYS, Items.REQUIRED_NAME_KEYS, REQUIRED_TYPE_KEYS;
  cbn [for_of];
  repeat match goal with
    | |- context [ ?a +:+ ?b ] =>
        let r := eval vm_compute in (a +:+ b) in change (a +:+ b) with r
    end.

(** Turns the statements run on [[l]] into [step]s on [l]; a nested-object
    test is decided first, by a fact at hand or else by cases. *)
Ltac run_steps :=
  repeat first
    [ rewrite run_assoc | rewrite run_ret
    | rewrite run_when_push | rewrite run_when_push_new
    | rewrite run_push_new
    | match goal with
      | H : ?g = _ |- context [ mbind _ (if ?g then _ else _) ] => rewrite H
      | |- context [ mbind _ (if ?g then _ else _) ] => destruct g eqn:?
      end ];
  rewrite ?run_done.

(** *** The failures so far, none twice *)

Lemma fresh_nil : fresh_within [] [].
Proof. split; [constructor | set_solver]. Qed.

Lemma fresh_snoc U k l :
  fresh_within U l → k ∉ l → k ∈ U → fresh_within U (l ++ [k]).
Proof.
  intros [Hnd Hsub] Hk HU. split.
  - apply NoDup_app. split_and!; [done | | apply NoDup_singleton].
    intros x Hx ->%list_elem_of_singleton. by apply Hk.
  - intros x [Hx | ->%list_elem_of_singleton]%elem_of_app; auto.
Qed.

Lemma fresh_step_new U b k l :
  fresh_within U l → fresh_within (k :: U) (step_new b k l).
Proof.
  intros [Hnd Hsub]. unfold step_new.
  assert (l ⊆ k :: U) by (intros x Hx; right; auto).
  destruct b; simpl; [case_bool_decide; simpl|]; try done.
  apply fresh_snoc; [done | done | left].
Qed.

Lemma fresh_step U b k l :
  fresh_within U l → k ∉ U → fresh_within (k :: U) (step b k l).
Proof.
  intros [Hnd Hsub] Hk. unfold step.
  assert (l ⊆ k :: U) by (intros x Hx; right; auto).
  destruct b; [|done].
  apply fresh_snoc; [done | intros Hl; apply Hk, Hsub, Hl | left].
Qed.

Ltac fresh_chain :=
  first
    [ apply fresh_nil
    | eapply fresh_step_new; fresh_chain
    | eapply fresh_step;
      [ fresh_chain | apply (bool_decide_unpack _); vm_compute; exact I ] ].

Lemma chain_NoDup U l : fresh_within U l → NoDup l.
Proof. by intros []. Qed.

(** *** A name that is not reported, a name that is *)

Lemma notin_step k0 b k l :
  k0 ∉ l → (b = true → k0 ≠ k) → k0 ∉ step b k l.
Proof.
  intros Hl Hk. unfold step. destruct b; [|done].
  intros [?| ->%list_elem_of_singleton]%elem_of_app; [done|]. by apply Hk.
Qed.

Lemma notin_step_new k0 b k l :
  k0 ∉ l → (b = true → k0 ≠ k) → k0 ∉ step_new b k l.
Proof.
  intros Hl Hk. unfold step_new. destruct b; [|done]. simpl.
  case_bool_decide; simpl; [done|].
  intros [?| ->%list_elem_of_singleton]%elem_of_app; [done|]. by apply Hk.
Qed.

Lemma in_step k0 b k l : k0 ∈ l → k0 ∈ step b k l.
Proof. intros Hl. unfold step. destruct b; [|done]. apply elem_of_app. auto. Qed.

Lemma in_step_new k0 b k l : k0 ∈ l → k0 ∈ step_new b k l.
Proof.
  intros Hl. unfold step_new. destruct (_ && _); [|done].
  apply elem_of_app. auto.
Qed.

Lemma in_step_new_here b k l : b = true → k ∈ step_new b k l.
Proof.
  intros ->. unfold step_new. simpl. case_bool_decide; simpl; [done|].
  apply elem_of_app. right. by apply list_elem_of_singleton.
Qed.

(** Decides a closed proposition by evaluation. *)
Ltac decide_closed := apply (bool_decide_unpack _); vm_compute; exact I.

(** No step reports [k0]: each one pushes another name, or its test fails. *)
Ltac notin_chain :=
  repeat first [ apply notin_step_new | apply notin_step ];
  first [ apply not_elem_of_nil
        | intros ?; discriminate
        | simpl; intros ?; discriminate ].


End Run.
Import Run.

(* ===================================================================== *)
(** ** From the data model to the validators' tests *)
(* ===================================================================== *)

Module Facts.
Import DataModel.

Lemma has_elim o key shape :
  has o key shape = true → js_in key o = true ∧ shape (get o key) = true.
Proof.
  destruct o as [| | | | | |props]; try done. simpl.
  destruct (props !! key) as [v|] eqn:Hv; [|done].
  intros Hs. split; [|done]. apply bool_decide_eq_true. by exists v.
Qed.

Lemma lacks_elim o key : lacks o key = true → js_in key o = false.
Proof.
  destruct o as [| | | | | |props]; try done. simpl.
  intros Hn%bool_decide_eq_true. apply bool_decide_eq_false.
  rewrite Hn. by intros [].
Qed.

Lemma text_isNonEmptyString v : text v = true → isNonEmptyString v = true.
Proof.
  destruct v as [| | | |s| |]; try done. unfold isNonEmptyString. simpl.
  case_bool_decide as Hs; [done|]. intros _. by destruct (trim s).
Qed.

Lemma finite_isNumber v : finite_number v = true → isNumber v = true.
Proof.
  destruct v as [| | |n| | |]; try done. unfold isNumber. simpl.
  by destruct n.
Qed.

Lemma is_string_typeof v :
  is_string v = true → String.eqb (typeof v) "string" = true.
Proof. by destruct v. Qed.

Lemma is_string_not_number v : is_string v = true → isNumber v = false.
Proof. by destruct v. Qed.

Lemma strings_isStringArray v : strings v = true → isStringArray v = true.
Proof.
  destruct v as [| | | | |items|]; try done. unfold isStringArray. simpl.
  induction items as [|item items IH]; [done|]. simpl.
  intros [Hi Hs]%andb_prop. rewrite IH by done. by destruct item.
Qed.

Lemma some_strings_isStringArray v :
  some_strings v = true →
  isStringArray v = true ∧ (Array_length v =? 0) = false.
Proof.
  destruct v as [| | | | |[|item items]|]; try done. intros H.
  split; [|done]. by apply strings_isStringArray.
Qed.

Lemma array_isArray v : array v = true → Array_isArray v = true.
Proof. done. Qed.

Lemma object_not_an_object v : object v = true → not_an_object v = false.
Proof. by destruct v. Qed.

Lemma nested_object o key :
  js_in key o = true → object (get o key) = true →
  not_a_nested_object key o = false.
Proof.
  unfold not_a_nested_object. intros ->. by destruct (get o key).
Qed.

(** A field that holds a string or a number is a field of an object. *)
Lemma get_defined o key :
  get o key ≠ VUndefined → js_in key o = true ∧ not_an_object o = false.
Proof.
  destruct o as [| | | | |items|props]; try done; simpl.
  - destruct (String.eqb key "length"); [done|].
    destruct (array_index key) as [i|]; [|done].
    destruct (items !! N.to_nat i) as [v|] eqn:Hi; [|done].
    intros _. split; [|done]. apply N.ltb_lt.
    apply lookup_lt_Some in Hi. lia.
  - destruct (props !! key) as [v|] eqn:Hv; [|done].
    intros _. split; [|done]. apply bool_decide_eq_true. by exists v.
Qed.

(** Splits a record shape into the tests the validators make. *)
Ltac shape_facts :=
  repeat match goal with
    | H : _ && _ = true |- _ => apply andb_prop in H; destruct H
    | H : has _ _ _ = true |- _ => apply has_elim in H; destruct H
    | H : lacks _ _ = true |- _ => apply lacks_elim in H
    | H : localized _ _ = true |- _ => unfold localized in H
    | H : base_stats _ = true |- _ => unfold base_stats in H
    | H : base_stats_with_string_speed _ = true |- _ =>
        unfold base_stats_with_string_speed in H
    | H : profile _ = true |- _ => unfold profile in H
    | H : profile_without_gender _ = true |- _ =>
        unfold profile_without_gender in H
    | H : forallb _ (_ :: _) = true |- _ => cbn [forallb] in H
    | H : forallb _ [] = true |- _ => clear H
    | H : text _ = true |- _ => apply text_isNonEmptyString in H
    | H : finite_number _ = true |- _ => apply finite_isNumber in H
    | H : strings _ = true |- _ => apply strings_isStringArray in H
    | H : some_strings _ = true |- _ =>
        apply some_strings_isStringArray in H; destruct H
    | H : array _ = true |- _ => apply array_isArray in H
    | H : is_string _ = true |- _ => apply is_string_not_number in H
    | Hin : js_in ?k ?o = true, H : object (get ?o ?k) = true |- _ =>
        apply (nested_object o k Hin) in H
    | H : object _ = true |- _ => apply object_not_an_object in H
    end.

(** Uses every test known to hold or fail. *)
Ltac use_facts :=
  repeat match goal with
    | H : _ = true |- _ => rewrite !H; clear H
    | H : _ = false |- _ => rewrite !H; clear H
    end.

End Facts.
Import Facts.

(* ===================================================================== *)
(** ** Conforming records pass *)
(* ===================================================================== *)

Lemma validatePokemon_conforming (pokemon : value) :
  DataModel.pokemon_record pokemon = true →
  returned (validatePokemon pokemon) [] = [].
Proof.
  unfold DataModel.pokemon_record, DataModel.pokemon_with. intros H.
  shape_facts.
  unfold returned, validatePokemon. rewrite run_new_array. unroll.
  use_facts. reflexivity.
Qed.

Lemma validateMove_conforming (move : value) (allowedTypes : js_set) :
  DataModel.move_record move = true →
  returned (validateMove move allowedTypes) [] = [].
Proof.
  unfold DataModel.move_record. intros H. shape_facts.
  unfold returned, validateMove. rewrite run_new_array. unroll.
  use_facts. reflexivity.
Qed.

Lemma validateItem_conforming (item : value) :
  DataModel.item_record item = true →
  returned (validateItem item) [] = [].
Proof.
  unfold DataModel.item_record. intros H. shape_facts.
  unfold returned, validateItem. rewrite run_new_array. unroll.
  use_facts. reflexivity.
Qed.

Lemma validateType_conforming (type : value) :
  DataModel.type_record type = true →
  returned (validateType type) [] = [].
Proof.
  unfold DataModel.type_record. intros H. shape_facts.
  unfold returned, validateType. rewrite run_new_array. unroll.
  use_facts. reflexivity.
Qed.

(** C1.  A record that has every required field and sub-field, each of the
    shape the data model gives it (texts non-empty after trimming, numbers
    finite, arrays of strings, a non-empty one for a Pokémon's types, nested
    objects), gets an empty failure list from its validator, in whatever
    store the validator runs. *)
Theorem conforming_records_pass (r : value) (allowedTypes : js_set) (σ : store) :
  (DataModel.pokemon_record r = true →
   returned (validatePokemon r) σ = []) ∧
  (DataModel.move_record r = true →
   returned (validateMove r allowedTypes) σ = []) ∧
  (DataModel.item_record r = true → returned (validateItem r) σ = []) ∧
  (DataModel.type_record r = true → returned (validateType r) σ = []).
Proof.
  split_and!; intros H.
  - rewrite returned_relocatable by apply validatePokemon_relocatable.
    by apply validatePokemon_conforming.
  - rewrite returned_relocatable by apply validateMove_relocatable.
    by apply validateMove_conforming.
  - rewrite returned_relocatable by apply validateItem_relocatable.
    by apply validateItem_conforming.
  - rewrite returned_relocatable by apply validateType_relocatable.
    by apply validateType_conforming.
Qed.

Lemma conforming_records_pass_witness :
  (DataModel.pokemon_record Samples.bulbasaur = true ∧
   returned (validatePokemon Samples.bulbasaur) [["id"]] = []) ∧
  (DataModel.move_record Samples.pound = true ∧
   returned (validateMove Samples.pound []) [["id"]] = []) ∧
  (DataModel.item_record Samples.master_ball = true ∧
   returned (validateItem Samples.master_ball) [["id"]] = []) ∧
  (DataModel.type_record Samples.normal_type = true ∧
   returned (validateType Samples.normal_type) [["id"]] = []).
Proof.
  split_and!.
  - vm_compute. reflexivity.
  - apply (proj1 (conforming_records_pass Samples.bulbasaur [] [["id"]])).
    vm_compute. reflexivity.
  - vm_compute. reflexivity.
  - apply (proj1 (proj2 (conforming_records_pass Samples.pound [] [["id"]]))).
    vm_compute. reflexivity.
  - vm_compute. reflexivity.
  - apply (proj1 (proj2 (proj2
      (conforming_records_pass Samples.master_ball [] [["id"]])))).
    vm_compute. reflexivity.
  - vm_compute. reflexivity.
  - apply (proj2 (proj2 (proj2
      (conforming_records_pass Samples.normal_type [] [["id"]])))).
    vm_compute. reflexivity.
Defined.

(** An empty array of types is an array of strings, and is reported: the
    data model asks for a non-empty one. *)
Example no_types_reported :
  returned (validatePokemon
    (Samples.bulbasaur_like (VArray [])
       (Samples.bulbasaur_base (Samples.num 45))
       (Samples.bulbasaur_profile [("gender", Samples.str "87.5:12.5")]))) []
  = ["type"].
Proof. vm_compute. reflexivity. Qed.

(* ===================================================================== *)
(** ** What is not an object fails every top-level key *)
(* ===================================================================== *)

(** C2.  For an input that is not an object ([undefined], [null], a
    boolean, a number, a string, an array), each validator returns the
    top-level required keys of its data set, in the order of its table.  An
    array passes the [typeof] guard; it has none of the keys, so the loop
    over the table reports them all and the later checks add nothing. *)
Theorem non_objects_fail_every_key (v : value) (allowedTypes : js_set)
    (σ : store) :
  DataModel.object v = false →
  returned (validatePokemon v) σ
    = ["id"; "name"; "type"; "base"; "species"; "description"; "evolution";
       "profile"] ∧
  returned (validateMove v allowedTypes) σ
    = ["id"; "name"; "type"; "category"; "pp"; "power"; "accuracy"] ∧
  returned (validateItem v) σ = ["id"; "name"; "type"; "description"] ∧
  returned (validateType v) σ
    = ["english"; "chinese"; "japanese"; "effective"; "ineffective";
       "no_effect"].
Proof.
  intros Hv.
  rewrite (returned_relocatable _ _ (validatePokemon_relocatable v)).
  rewrite (returned_relocatable _ _ (validateMove_relocatable v allowedTypes)).
  rewrite (returned_relocatable _ _ (validateItem_relocatable v)).
  rewrite (returned_relocatable _ _ (validateType_relocatable v)).
  destruct v; try discriminate Hv; split_and!; reflexivity.
Qed.

Lemma non_objects_fail_every_key_witness :
  DataModel.object (VArray [VNull; Samples.bulbasaur]) = false ∧
  returned (validatePokemon (VArray [VNull; Samples.bulbasaur])) []
    = REQUIRED_POKEMON_KEYS ∧
  returned (validateType VNull) [] = REQUIRED_TYPE_KEYS.
Proof.
  split; [reflexivity|]. split.
  - apply (non_objects_fail_every_key (VArray [VNull; Samples.bulbasaur]) [] []).
    reflexivity.
  - apply (non_objects_fail_every_key VNull [] []). reflexivity.
Defined.

(* ===================================================================== *)
(** ** Scenario 1: a string for [base.Speed], no [profile.gender] *)
(* ===================================================================== *)

(** The specification's list for scenario 1 has the two names the other way
    round: [base] is checked before [profile]. *)
Lemma scenario1_order_counterexample :
  DataModel.pokemon_with DataModel.base_stats_with_string_speed
    DataModel.profile_without_gender Samples.bulbasaur_scenario1 = true ∧
  returned (validatePokemon Samples.bulbasaur_scenario1) []
    ≠ ["profile.gender"; "base.Speed"].
Proof. split; [vm_compute; reflexivity | vm_compute; discriminate]. Qed.

(** C3, amended.  For a Pokémon record that conforms in every respect except
    that [profile.gender] is absent and [base.Speed] is a string,
    [validatePokemon] returns exactly [["base.Speed"; "profile.gender"]], in
    that order: the order in which the checks run. *)
Theorem scenario1_failures (pokemon : value) (σ : store) :
  DataModel.pokemon_with DataModel.base_stats_with_string_speed
    DataModel.profile_without_gender pokemon = true →
  returned (validatePokemon pokemon) σ = ["base.Speed"; "profile.gender"].
Proof.
  unfold DataModel.pokemon_with. intros H.
  rewrite returned_relocatable by apply validatePokemon_relocatable.
  shape_facts.
  unfold returned, validatePokemon. rewrite run_new_array. unroll.
  use_facts. reflexivity.
Qed.

Lemma scenario1_failures_witness :
  returned (validatePokemon Samples.bulbasaur_scenario1) []
  = ["base.Speed"; "profile.gender"].
Proof.
  apply (scenario1_failures Samples.bulbasaur_scenario1 []).
  vm_compute. reflexivity.
Defined.

(* ===================================================================== *)
(** ** No name twice *)
(* ===================================================================== *)

Lemma validatePokemon_NoDup (pokemon : value) :
  NoDup (returned (validatePokemon pokemon) []).
Proof.
  unfold returned, validatePokemon. rewrite run_new_array.
  destruct (not_an_object pokemon) eqn:Hg; [decide_closed|].
  unroll. run_steps; eapply chain_NoDup; fresh_chain.
Qed.

Lemma validateMove_NoDup (move : value) (allowedTypes : js_set) :
  NoDup (returned (validateMove move allowedTypes) []).
Proof.
  unfold returned, validateMove. rewrite run_new_array.
  destruct (not_an_object move) eqn:Hg; [decide_closed|].
  unroll. run_steps; eapply chain_NoDup; fresh_chain.
Qed.

Lemma validateItem_NoDup (item : value) :
  NoDup (returned (validateItem item) []).
Proof.
  unfold returned, validateItem. rewrite run_new_array.
  destruct (not_an_object item) eqn:Hg; [decide_closed|].
  unroll. run_steps; eapply chain_NoDup; fresh_chain.
Qed.

Lemma validateType_NoDup (type : value) :
  NoDup (returned (validateType type) []).
Proof.
  unfold returned, validateType. rewrite run_new_array.
  destruct (not_an_object type) eqn:Hg; [decide_closed|].
  unroll. run_steps; eapply chain_NoDup; fresh_chain.
Qed.

(** C4.  Whatever the input, no field name (dotted paths included) occurs
    twice in the failure list a validator returns. *)
Theorem failures_have_no_duplicates (r : value) (allowedTypes : js_set)
    (σ : store) :
  NoDup (returned (validatePokemon r) σ) ∧
  NoDup (returned (validateMove r allowedTypes) σ) ∧
  NoDup (returned (validateItem r) σ) ∧
  NoDup (returned (validateType r) σ).
Proof.
  rewrite (returned_relocatable _ _ (validatePokemon_relocatable r)).
  rewrite (returned_relocatable _ _ (validateMove_relocatable r allowedTypes)).
  rewrite (returned_relocatable _ _ (validateItem_relocatable r)).
  rewrite (returned_relocatable _ _ (validateType_relocatable r)).
  split_and!.
  - apply validatePokemon_NoDup.
  - apply validateMove_NoDup.
  - apply validateItem_NoDup.
  - apply validateType_NoDup.
Qed.

(** A field both missing and malformed is reported once. *)
Example missing_and_malformed_once :
  returned (validateType (Samples.obj [])) []
  = ["english"; "chinese"; "japanese"; "effective"; "ineffective";
     "no_effect"].
Proof. vm_compute. reflexivity. Qed.

(* ===================================================================== *)
(** ** The allow-list is not consulted *)
(* ===================================================================== *)

(** C5.  [validateMove] does the same whatever set it is given as
    [allowedTypes]: the same array, the same store, the same failure
    list. *)
Theorem allowedTypes_is_ignored (move : value) (allowed1 allowed2 : js_set)
    (σ : store) :
  validateMove move allowed1 σ = validateMove move allowed2 σ ∧
  returned (validateMove move allowed1) σ
  = returned (validateMove move allowed2) σ.
Proof. split; reflexivity. Qed.

(* ===================================================================== *)
(** ** Scenario 2: [power] is checked as a text *)
(* ===================================================================== *)




(* ===================================================================== *)
(** ** No hidden state *)
(* ===================================================================== *)

Lemma relocatable_same_twice (c : Heap ref) (σ : store) :
  relocatable c → same_twice c σ.
Proof.
  intros Hc. unfold same_twice.
  pose proof (relocatable_twice c σ Hc) as H.
  destruct (c σ) as [a1 σ1]. destruct (c σ1) as [a2 σ2].
  destruct H as (Hlt1 & Hlt2 & H1 & H2 & H3). by rewrite H1, H2, H3.
Qed.

(** C8.  Run twice in a row on the same record, from any store, a validator
    returns the second time a new array with the contents of the first, and
    the first array still holds them: the failure lists of the two runs are
    the same. *)
Theorem validators_are_stateless (r : value) (allowedTypes : js_set)
    (σ : store) :
  same_twice (validatePokemon r) σ ∧
  same_twice (validateMove r allowedTypes) σ ∧
  same_twice (validateItem r) σ ∧
  same_twice (validateType r) σ.
Proof.
  split_and!; apply relocatable_same_twice.
  - apply validatePokemon_relocatable.
  - apply validateMove_relocatable.
  - apply validateItem_relocatable.
  - apply validateType_relocatable.
Qed.

(* ===================================================================== *)
(** ** Checks the validators do not make *)
(* ===================================================================== *)

(** C9.  Whatever array [profile.ability] is, and whatever the rest of the
    record, [validatePokemon] reports no ["profile.ability"]: the elements
    of the array are not looked at. *)
Theorem any_array_is_an_ability_list (pokemon : value) (items : list value)
    (σ : store) :
  get (get pokemon "profile") "ability" = VArray items →
  "profile.ability" ∉ returned (validatePokemon pokemon) σ.
Proof.
  intros Hget.
  rewrite returned_relocatable by apply validatePokemon_relocatable.
  destruct (get_defined (get pokemon "profile") "ability") as [Hin _];
    [by rewrite Hget|].
  unfold returned, validatePokemon. rewrite run_new_array.
  destruct (not_an_object pokemon) eqn:Hg; [decide_closed|].
  unroll. rewrite !Hin, !Hget. run_steps; notin_chain.
Qed.

Lemma any_array_is_an_ability_list_witness :
  "profile.ability" ∉ returned
    (validatePokemon
       (Samples.bulbasaur_with_ability
          (VArray [VNull; Samples.num 7; VArray [VBool true]]))) [].
Proof.
  apply (any_array_is_an_ability_list _
           [VNull; Samples.num 7; VArray [VBool true]] []).
  reflexivity.
Defined.




(* ===================================================================== *)
(** ** The scripts: report first, then the exit status *)
(* ===================================================================== *)

Module Script.

Lemma on_heap_validate (c : Heap ref) (p : process) :
  relocatable c →
  on_heap c p
  = (length (heap p) + (c []).1,
     {| heap := heap p ++ (c []).2; trace := trace p |}).
Proof. intros [_ Hc]. unfold on_heap. by rewrite Hc. Qed.

(** The loop of [main]: it leaves the trace alone, and [failures] grows by
    one for each record that fails. *)
Lemma for_pushing_validate (validate : value → Heap ref)
    (mk : value → ref → Failure)
    (body : value → list Failure → Proc (list Failure))
    (records : list value) :
  (∀ r, relocatable (validate r)) →
  (∀ r fs, body r fs =
     (a ← on_heap (validate r);
      n ← on_heap (array_length a);
      if (0 <? n)%nat then mret (fs ++ [mk r a]) else mret fs)) →
  ∀ fs p, ∃ fs' σ',
    for_pushing records fs body p = (fs', {| heap := σ'; trace := trace p |}) ∧
    length fs ≤ length fs' ∧
    (length fs' = length fs ↔ Forall (λ r, fails validate r = false) records).
Proof.
  intros Hreloc Hbody.
  induction records as [|r records IH]; intros fs p.
  - exists fs, (heap p). destruct p. simpl. split_and!; [done | lia | done].
  - simpl. unfold mbind at 1, Proc_bind at 1. rewrite Hbody.
    unfold mbind, Proc_bind.
    rewrite on_heap_validate by apply Hreloc.
    unfold on_heap, array_length. cbn [heap trace].
    pose proof (Hreloc r) as [Hlt _].
    rewrite lookup_total_app_r by lia.
    replace (length (heap p) + (validate r []).1 - length (heap p))
      with (validate r []).1 by lia.
    match goal with |- context [ (0 <? length ?t)%nat ] => set (l0 := t) end.
    assert (returned (validate r) [] = l0) as Hret
      by (unfold returned; subst l0; by destruct (validate r [])).
    clearbody l0. subst l0.
    destruct (returned (validate r) []) as [|k l] eqn:Hl; simpl.
    + destruct (IH fs {| heap := heap p ++ (validate r []).2;
                          trace := trace p |}) as (fs' & σ' & Hrun & Hle & Hiff).
      exists fs', σ'. split_and!; [done | done |].
      rewrite Hiff. split.
      * intros H. constructor; [|done]. unfold fails. by rewrite Hl.
      * by intros [_ H]%Forall_cons.
    + destruct (IH (fs ++ [mk r (length (heap p) + (validate r []).1)])
                  {| heap := heap p ++ (validate r []).2;
                     trace := trace p |}) as (fs' & σ' & Hrun & Hle & Hiff).
      exists fs', σ'. rewrite length_app in Hle. simpl in Hle.
      split_and!; [done | lia |]. split; [lia|].
      intros [H _]%Forall_cons. unfold fails in H. by rewrite Hl in H.
Qed.

Lemma failure_json_reads (f : Failure) (p : process) :
  ∃ v, failure_json f p = (v, {| heap := heap p; trace := trace p |}).
Proof. unfold failure_json, mbind, Proc_bind, on_heap. simpl. by eexists. Qed.

Lemma failures_json_reads (fs : list Failure) (p : process) :
  ∃ vs, failures_json fs p = (vs, {| heap := heap p; trace := trace p |}).
Proof.
  revert p. induction fs as [|f fs IH]; intros p; simpl.
  - destruct p. by eexists.
  - unfold mbind at 1, Proc_bind at 1.
    destruct (failure_json_reads f p) as [v ->].
    unfold mbind at 1, Proc_bind at 1.
    destruct (IH {| heap := heap p; trace := trace p |}) as [vs ->].
    by eexists.
Qed.

(** The loop that prints the failures only logs. *)
Lemma for_each_logs (body : Failure → Proc unit) (fs : list Failure) :
  (∀ f p, ∃ l1 l2, body f p =
     (tt, {| heap := heap p;
             trace := (trace p ++ [ConsoleLog l1]) ++ [ConsoleLog l2] |})) →
  ∀ p, ∃ logs,
    for_each fs body p = (tt, {| heap := heap p; trace := trace p ++ logs |}) ∧
    Forall is_log logs.
Proof.
  intros Hbody. induction fs as [|f fs IH]; intros p; simpl.
  - exists []. destruct p. simpl. by rewrite app_nil_r.
  - unfold mbind, Proc_bind.
    destruct (Hbody f p) as (l1 & l2 & ->).
    destruct (IH {| heap := heap p;
                    trace := (trace p ++ [ConsoleLog l1]) ++ [ConsoleLog l2] |})
      as (logs & -> & Hlogs).
    exists (ConsoleLog l1 :: ConsoleLog l2 :: logs). simpl. split.
    + by rewrite <- !(assoc_L (++)).
    + repeat constructor; [by eexists..|done].
Qed.

Lemma last_exitCode_set (t : list event) (code : nat) :
  last_exitCode (t ++ [SetExitCode code]) = Some code.
Proof. unfold last_exitCode. rewrite omap_app. simpl. apply last_snoc. Qed.

Lemma logs_are_no_writes (logs : list event) (e : event) path data :
  Forall is_log logs → e ∈ logs → e ≠ WriteFile path data.
Proof.
  intros Hlogs He. rewrite Forall_forall in Hlogs.
  destruct (Hlogs e He) as [line ->]. done.
Qed.

Lemma Exists_fails (f : value → bool) (l : list value) :
  Exists (λ r, f r = true) l ↔ ¬ Forall (λ r, f r = false) l.
Proof.
  induction l as [|r l IH].
  - split; [by intros ?%Exists_nil | intros []; constructor].
  - rewrite Exists_cons, Forall_cons, IH.
    destruct (f r); split.
    + intros _ [? _]. done.
    + auto.
    + intros [?|H] [_ ?]; [done | by apply H].
    + intros H. right. intros ?. by apply H.
Qed.

(** What follows the loop in [main]: the report, the summary, the exit
    code. *)
Lemma main_tail (path : string) (validate : value → Heap ref)
    (records : list value) (fs : list Failure) (σ : store)
    (results : list value → value) (ok1 ok2 bad1 bad2 : list piece)
    (body : Failure → Proc unit) :
  (length fs = 0 ↔ Forall (λ r, fails validate r = false) records) →
  (∀ f p, ∃ l1 l2, body f p =
     (tt, {| heap := heap p;
             trace := (trace p ++ [ConsoleLog l1]) ++ [ConsoleLog l2] |})) →
  reports_and_exits path validate records
    ((failures_data ← failures_json fs;
      writeFileSync path (results failures_data);;
      if (length fs =? 0)%nat then
        console_log ok1;; console_log ok2;; mret Returned
      else
        console_log bad1;; console_log bad2;;
        for_each fs body;; set_exitCode 1;; mret Returned)
     {| heap := σ; trace := [] |}).
Proof.
  intros Hiff Hbody.
  assert (Exists (λ r, fails validate r = true) records ↔ length fs ≠ 0)
    as Hex by (by rewrite Exists_fails, <- Hiff).
  unfold reports_and_exits.
  unfold mbind at 1, Proc_bind at 1.
  destruct (failures_json_reads fs {| heap := σ; trace := [] |}) as [vs ->].
  unfold mbind at 1, Proc_bind at 1. unfold writeFileSync at 1, emit at 1.
  cbn [heap trace app].
  destruct (length fs =? 0)%nat eqn:Hlen.
  - apply Nat.eqb_eq in Hlen. simpl. rewrite Hex, <- Hiff.
    split_and!; [done | | done | done].
    eexists _, _. split; [done|].
    intros e He. repeat (apply elem_of_cons in He as [->|He]); try done.
    by apply elem_of_nil in He.
  - apply Nat.eqb_neq in Hlen.
    unfold mbind, Proc_bind, console_log, emit. cbn [heap trace app].
    destruct (for_each_logs body fs Hbody
               {| heap := σ;
                  trace := [WriteFile path (results vs); ConsoleLog bad1;
                            ConsoleLog bad2] |}) as (logs & -> & Hlogs).
    unfold set_exitCode, emit. cbn [heap trace app mret Proc_ret].
    unfold exit_status. cbn [trace].
    change (WriteFile path (results vs) :: ConsoleLog bad1 :: ConsoleLog bad2
            :: logs ++ [SetExitCode 1])
      with ((WriteFile path (results vs) :: ConsoleLog bad1 :: ConsoleLog bad2
             :: logs) ++ [SetExitCode 1]).
    rewrite last_exitCode_set.
    simpl. rewrite Hex, <- Hiff.
    split_and!; [done | | split; [done | lia] | done].
    eexists _, _. split; [done|].
    intros e He path' data'.
    repeat (apply elem_of_cons in He as [->|He]); try done.
    apply elem_of_app in He as [He|He].
    + by apply (logs_are_no_writes logs).
    + by apply list_elem_of_singleton in He as ->.
Qed.

End Script.
Import Script.

(** The two lines printed for a failure. *)
Ltac two_logs :=
  intros f p; unfold mbind, Proc_bind, console_log, emit, join_missingKeys,
    on_heap; cbn [heap trace]; by eexists _, _.

Lemma Pokedex_main_reports_and_exits (now : jsstring) (pokedex : list value) :
  reports_and_exits Pokedex.outputPath validatePokemon pokedex
    (Pokedex.main now pokedex start).
Proof.
  unfold Pokedex.main.
  unfold mbind at 1, Proc_bind at 1.
  edestruct (for_pushing_validate validatePokemon) as (fs & σ & -> & _ & Hiff);
    [apply validatePokemon_relocatable | reflexivity |].
  apply (main_tail _ _ _ _ _ (λ failures_data, VObject _)); [done | two_logs].
Qed.

Lemma Items_main_reports_and_exits (now : jsstring) (items : list value) :
  reports_and_exits Items.outputPath validateItem items
    (Items.main now items start).
Proof.
  unfold Items.main.
  unfold mbind at 1, Proc_bind at 1.
  edestruct (for_pushing_validate validateItem) as (fs & σ & -> & _ & Hiff);
    [apply validateItem_relocatable | reflexivity |].
  apply (main_tail _ _ _ _ _ (λ failures_data, VObject _)); [done | two_logs].
Qed.

Lemma Types_main_reports_and_exits (now : jsstring) (types : list value) :
  reports_and_exits Types.outputPath validateType types
    (Types.main now types start).
Proof.
  unfold Types.main.
  unfold mbind at 1, Proc_bind at 1.
  edestruct (for_pushing_validate validateType) as (fs & σ & -> & _ & Hiff);
    [apply validateType_relocatable | reflexivity |].
  apply (main_tail _ _ _ _ _ (λ failures_data, VObject _)); [done | two_logs].
Qed.

(** [t.english] can be read from whatever is neither [null] nor
    [undefined]. *)
Lemma read_english_all (types : list value) :
  Forall (λ t, t ≠ VNull ∧ t ≠ VUndefined) types →
  ∃ allowedTypes, mapM read_english types = Some allowedTypes.
Proof.
  induction 1 as [|t types [Hnull Hundef] _ [allowed IH]]; simpl.
  - by eexists.
  - rewrite IH. destruct t; try done; by eexists.
Qed.

Lemma Moves_main_reports_and_exits (now : jsstring) (moves types : list value) :
  Forall (λ t, t ≠ VNull ∧ t ≠ VUndefined) types →
  reports_and_exits Moves.outputPath (λ move, validateMove move []) moves
    (Moves.main now moves types start).
Proof.
  intros [allowedTypes Hread]%read_english_all.
  unfold Moves.main. rewrite Hread.
  unfold mbind at 1, Proc_bind at 1.
  edestruct (for_pushing_validate (λ move, validateMove move allowedTypes))
    as (fs & σ & -> & _ & Hiff);
    [intros r; apply validateMove_relocatable | reflexivity |].
  apply (main_tail _ _ _ _ _ (λ failures_data, VObject _)); [done | two_logs].
Qed.

(** With a [null] in the type list, the moves script stops on a TypeError
    before it has validated or written anything, and exits with 1 though no
    move fails. *)
Lemma null_type_entry_counterexample :
  Moves.main (utf16 "2024-01-01T00:00:00.000Z") [Samples.pound] [VNull] start
    = (Uncaught, start) ∧
  fails (λ move, validateMove move []) Samples.pound = false ∧
  exit_status Uncaught start = 1 ∧
  ¬ reports_and_exits Moves.outputPath (λ move, validateMove move [])
      [Samples.pound]
      (Moves.main (utf16 "2024-01-01T00:00:00.000Z") [Samples.pound] [VNull]
         start).
Proof.
  split_and!; [reflexivity | vm_compute; reflexivity | reflexivity |].
  intros H. change (Moves.main _ _ _ _) with (Uncaught, start) in H.
  by destruct H as [? _].
Qed.

(** C6, amended.  Whatever records it is given, each script writes its
    report before anything else it does (also when no record fails), and
    then exits with 0 exactly when no record fails its validator and with 1
    exactly when some record does; for the moves script, provided no entry
    of the type list it also reads is [null]. *)
Theorem scripts_report_then_exit (now : jsstring) (records types : list value) :
  reports_and_exits Pokedex.outputPath validatePokemon records
    (Pokedex.main now records start) ∧
  (Forall (λ t, t ≠ VNull ∧ t ≠ VUndefined) types →
   reports_and_exits Moves.outputPath (λ move, validateMove move []) records
     (Moves.main now records types start)) ∧
  reports_and_exits Items.outputPath validateItem records
    (Items.main now records start) ∧
  reports_and_exits Types.outputPath validateType records
    (Types.main now records start).
Proof.
  split_and!.
  - apply Pokedex_main_reports_and_exits.
  - apply Moves_main_reports_and_exits.
  - apply Items_main_reports_and_exits.
  - apply Types_main_reports_and_exits.
Qed.

Lemma scripts_report_then_exit_witness :
  Forall (λ t, t ≠ VNull ∧ t ≠ VUndefined) [Samples.normal_type; VBool true] ∧
  reports_and_exits Moves.outputPath (λ move, validateMove move [])
    [Samples.pound; VNull]
    (Moves.main (utf16 "2024-01-01T00:00:00.000Z") [Samples.pound; VNull]
       [Samples.normal_type; VBool true] start).
Proof.
  assert (Forall (λ t, t ≠ VNull ∧ t ≠ VUndefined)
            [Samples.normal_type; VBool true]) as Htypes
    by (repeat constructor; discriminate).
  split; [exact Htypes|].
  exact (proj1 (proj2 (scripts_report_then_exit
    (utf16 "2024-01-01T00:00:00.000Z") [Samples.pound; VNull]
    [Samples.normal_type; VBool true])) Htypes).
Defined.

(** Scenario 3: a data set of conforming items. *)
Example conforming_items_exit_0 :
  let '(c, p) := Items.main (utf16 "2024-01-01T00:00:00.000Z")
                   [Samples.master_ball; Samples.master_ball] start in
  exit_status c p = 0 ∧
  ∃ data, head (trace p) = Some (WriteFile Items.outputPath (VObject data)) ∧
          data !! "itemsWithMissingKeys" = Some (VNumber (number_of_nat 0)) ∧
          data !! "failures" = Some (VArray []).
Proof. vm_compute. split; [done|]. eexists. split_and!; reflexivity. Qed.

(* ===================================================================== *)
(** ** Further scenarios of the specification *)
(* ===================================================================== *)

(** Scenario 4: a type record without [no_effect]. *)
Example type_without_no_effect :
  returned (validateType (Samples.obj
    [("english", Samples.str "Normal"); ("chinese", Samples.str "Yi Ban");
     ("japanese", Samples.str "Nomaru"); ("effective", VArray []);
     ("ineffective", VArray [Samples.str "Rock"])])) []
  = ["no_effect"].
Proof. vm_compute. reflexivity. Qed.

(** A string of white space only counts as missing. *)
Example blank_text_is_missing :
  returned (validateItem (Samples.obj
    [("id", Samples.num 4);
     ("name", Samples.obj [("english", Samples.str "Poke Ball");
                           ("japanese", VString [9%N; 32%N; 12288%N]);
                           ("chinese", Samples.str "Jing Ling Qiu")]);
     ("type", Samples.str "Pokeballs");
     ("description", Samples.str "A device for catching wild Pokemon.")])) []
  = ["name.japanese"].
Proof. vm_compute. reflexivity. Qed.

(** An array with an element that is not a string is reported. *)
Example mixed_array_is_malformed :
  returned (validateType (Samples.obj
    [("english", Samples.str "Normal"); ("chinese", Samples.str "Yi Ban");
     ("japanese", Samples.str "Nomaru"); ("effective", VArray []);
     ("ineffective", VArray [Samples.str "Rock"; Samples.num 3]);
     ("no_effect", VArray [Samples.str "Ghost"])])) []
  = ["ineffective"].
Proof. vm_compute. reflexivity. Qed.

(* ===================================================================== *)
(** ** Which strings are non-empty *)
(* ===================================================================== *)

Module Trim.

Lemma trimStart_nil (s : jsstring) :
  trimStart s = [] ↔ Forall (λ c, is_white_space c = true) s.
Proof.
  induction s as [|c s IH]; simpl; [by split|].
  destruct (is_white_space c) eqn:Hc.
  - rewrite IH. split; [by constructor | by intros [_ ?]%Forall_cons].
  - split; [done | by intros [? _]%Forall_cons; congruence].
Qed.

Lemma trimStart_white (s : jsstring) :
  Forall (λ c, is_white_space c = true) (trimStart s) → trimStart s = [].
Proof.
  induction s as [|c s IH]; simpl; [done|].
  destruct (is_white_space c) eqn:Hc; [done|].
  intros [? _]%Forall_cons. congruence.
Qed.

Lemma trim_nil (s : jsstring) :
  trim s = [] ↔ Forall (λ c, is_white_space c = true) s.
Proof.
  unfold trim, trimEnd. rewrite <- trimStart_nil. split.
  - intros H. apply (f_equal length) in H. rewrite length_rev in H.
    apply nil_length_inv, trimStart_nil in H.
    apply trimStart_white. apply List.Forall_rev in H.
    by rewrite rev_involutive in H.
  - by intros ->.
Qed.

End Trim.

(** X1.  [isNonEmptyString] accepts exactly the strings that hold a code
    unit that is not white space: leading and trailing white space is
    trimmed, so a string of white space only is as good as empty. *)
Theorem isNonEmptyString_iff (v : value) :
  isNonEmptyString v = true ↔
  ∃ s, v = VString s ∧ Exists (λ c, is_white_space c = false) s.
Proof.
  assert (∀ s, (0 <? length (trim s))%nat = true ↔
               Exists (λ c, is_white_space c = false) s) as Hs.
  { intros s. rewrite Nat.ltb_lt. split.
    - intros Hlen.
      destruct (decide (Forall (λ c, is_white_space c = true) s)) as [Hall|Hn].
      + apply Trim.trim_nil in Hall. rewrite Hall in Hlen. simpl in Hlen. lia.
      + apply not_Forall_Exists in Hn; [|solve_decision].
        eapply Exists_impl; [exact Hn|]. simpl. intros c Hc.
        by destruct (is_white_space c).
    - intros Hex. destruct (trim s) eqn:Ht; [|simpl; lia].
      apply Trim.trim_nil in Ht. rewrite Forall_forall in Ht.
      apply Exists_exists in Hex as (c & Hc & Hw).
      rewrite (Ht c Hc) in Hw. done. }
  split.
  - destruct v as [| | | |s| |]; try done. unfold isNonEmptyString. simpl.
    intros H%Hs. by exists s.
  - intros (s & -> & H%Hs). done.
Qed.

(** A string of white space only, of any length, is not accepted. *)
Example white_space_only :
  isNonEmptyString (VString [32%N; 9%N; 10%N; 160%N; 8232%N; 65279%N]) = false.
Proof. reflexivity. Qed.

(* ===================================================================== *)
(** ** What is reported, exactly *)
(* ===================================================================== *)

Module Fields.
Import DataModel Reported.

Lemma has_code o key shape :
  no_array_key key → has o key shape = js_in key o && shape (get o key).
Proof.
  intros Hk. destruct o as [| | | | |items|props]; try done.
  - by rewrite Hk.
  - unfold has, js_in, get. by destruct (props !! key) as [v|] eqn:Hv.
Qed.

Lemma has_container o key :
  no_array_key key →
  has o key container = negb (not_a_nested_object key o).
Proof.
  intros Hk. rewrite has_code by done. unfold not_a_nested_object.
  destruct (js_in key o); [|done].
  by destruct (get o key) as [| |[]|[]|[]| |].
Qed.

Lemma missing_not_nested key o :
  negb (js_in key o) = true → not_a_nested_object key o = true.
Proof. unfold not_a_nested_object. by intros ->. Qed.

Lemma text_code v : text v = isNonEmptyString v.
Proof.
  destruct v as [| | | |s| |]; try done. unfold isNonEmptyString. simpl.
  case_bool_decide as Hs; [by rewrite Hs | by destruct (trim s)].
Qed.

Lemma number_code v : number v = isNumber v.
Proof. by destruct v. Qed.

Lemma strings_code v : strings v = isStringArray v.
Proof.
  destruct v as [| | | | |items|]; try done. unfold isStringArray. simpl.
  induction items as [|item items IH]; [done|]. simpl. rewrite IH.
  by destruct item.
Qed.

Lemma some_strings_code v :
  some_strings v = isStringArray v && negb (Array_length v =? 0).
Proof.
  destruct v as [| | | | |[|item items]|]; try done.
  rewrite <- strings_code. simpl. by rewrite andb_true_r.
Qed.

Lemma array_code v : array v = Array_isArray v.
Proof. done. Qed.

Lemma in_step_here b k l : b = true → k ∈ step b k l.
Proof.
  intros ->. unfold step. apply elem_of_app. right.
  by apply list_elem_of_singleton.
Qed.

Lemma elem_step k0 b k l :
  k0 ∈ step b k l → k0 ∈ l ∨ (b = true ∧ k0 = k).
Proof.
  unfold step. destruct b; [|auto].
  intros [?| ->%list_elem_of_singleton]%elem_of_app; auto.
Qed.

Lemma elem_step_new k0 b k l :
  k0 ∈ step_new b k l → k0 ∈ l ∨ (b = true ∧ k0 = k).
Proof.
  unfold step_new. destruct b; simpl; [|auto].
  case_bool_decide; simpl; [auto|].
  intros [?| ->%list_elem_of_singleton]%elem_of_app; auto.
Qed.

(** Writes the table of a record with the tests of the validator. *)
Ltac table_code :=
  unfold pokemon_fields, move_fields, item_fields, type_fields, top, sub;
  repeat match goal with
    | |- context [ ?a +:+ ?b ] =>
        let r := eval vm_compute in (a +:+ b) in change (a +:+ b) with r
    end;
  rewrite ?has_container by (intros ?; reflexivity);
  repeat match goal with
    | H : not_a_nested_object _ _ = _ |- _ => rewrite !H
    end;
  cbn [negb andb];
  rewrite ?has_code by (intros ?; reflexivity);
  rewrite ?text_code, ?number_code, ?strings_code, ?some_strings_code,
    ?array_code, ?negb_andb, ?negb_involutive, ?orb_assoc.

(** Finds an entry in a table. *)
Ltac find_entry :=
  repeat first [ apply list_elem_of_here | apply list_elem_of_further ].

(** Each step that reports a name makes its entry in the table true. *)
Ltac steps_to_table H :=
  repeat first
    [ apply elem_step_new in H as [H | [? ->]]
    | apply elem_step in H as [H | [? ->]] ];
  [ by apply elem_of_nil in H | .. ];
  first
    [ match goal with
      | Hb : negb (js_in ?k ?o) = true,
        Hn : not_a_nested_object ?k ?o = false |- _ =>
          exfalso; unfold not_a_nested_object in Hn;
          destruct (js_in k o); discriminate
      end
    | match goal with
      | Hb : negb (js_in ?k ?o) = true |- _ =>
          rewrite ?Hb, ?(missing_not_nested k o Hb); cbn [orb]; find_entry
      | Hb : ?b = true |- _ => rewrite ?Hb; cbn [orb]; find_entry
      | _ => find_entry
      end ].

(** Some step reports the name of an entry that is true. *)
Ltac in_chain' :=
  repeat first
    [ apply in_step_new_here; reflexivity
    | apply in_step_here; reflexivity
    | apply in_step_new | apply in_step ].

Ltac table_to_steps H :=
  repeat (apply elem_of_cons in H as [H|H]);
  [ .. | by apply elem_of_nil in H ];
  inversion H; subst; clear H;
  try match goal with Hc : true = _ |- _ => rewrite <- ?Hc end;
  in_chain'.

(** What is not an object: the top-level names, and they alone, are true in
    the table. *)
Ltac not_an_object_exact :=
  split; intros H;
  [ vm_compute in H; vm_compute;
    repeat (apply elem_of_cons in H as [->|H]);
    [ find_entry .. | by apply elem_of_nil in H ]
  | vm_compute in H; vm_compute;
    repeat (apply elem_of_cons in H as [H|H]);
    [ .. | by apply elem_of_nil in H ];
    inversion H; subst; find_entry ].

End Fields.
Import Fields Reported.

Lemma validateType_exact (type : value) (k : string) :
  k ∈ returned (validateType type) [] ↔ (k, true) ∈ type_fields type.
Proof.
  unfold returned, validateType. rewrite run_new_array.
  destruct (not_an_object type) eqn:Hg.
  - destruct type; try discriminate Hg; not_an_object_exact.
  - unroll. run_steps. split.
    + intros H. table_code. steps_to_table H.
    + table_code. intros H. table_to_steps H.
Qed.

Lemma validateItem_exact (item : value) (k : string) :
  k ∈ returned (validateItem item) [] ↔ (k, true) ∈ item_fields item.
Proof.
  unfold returned, validateItem. rewrite run_new_array.
  destruct (not_an_object item) eqn:Hg.
  - destruct item; try discriminate Hg; not_an_object_exact.
  - unroll. run_steps; (split;
    [ intros H; table_code; steps_to_table H
    | table_code; intros H; table_to_steps H ]).
Qed.

Lemma validateMove_exact (move : value) (allowedTypes : js_set) (k : string) :
  k ∈ returned (validateMove move allowedTypes) [] ↔
  (k, true) ∈ move_fields move.
Proof.
  unfold returned, validateMove. rewrite run_new_array.
  destruct (not_an_object move) eqn:Hg.
  - destruct move; try discriminate Hg; not_an_object_exact.
  - unroll. run_steps; (split;
    [ intros H; table_code; steps_to_table H
    | table_code; intros H; table_to_steps H ]).
Qed.

Lemma validatePokemon_exact (pokemon : value) (k : string) :
  k ∈ returned (validatePokemon pokemon) [] ↔
  (k, true) ∈ pokemon_fields pokemon.
Proof.
  unfold returned, validatePokemon. rewrite run_new_array.
  destruct (not_an_object pokemon) eqn:Hg.
  - destruct pokemon; try discriminate Hg; not_an_object_exact.
  - unroll. run_steps; (split;
    [ intros H; table_code; steps_to_table H
    | table_code; intros H; table_to_steps H ]).
Qed.

(** X2.  [validatePokemon] reports a name exactly when the table of the
    record has it as true, in whatever store it runs: a top-level field when
    the record is not an object that has the field in its accepted shape, a
    sub-field when its container is there and lacks it in its accepted
    shape. *)
Theorem validatePokemon_reports_exactly (pokemon : value) (σ : store)
    (k : string) :
  k ∈ returned (validatePokemon pokemon) σ ↔
  (k, true) ∈ pokemon_fields pokemon.
Proof.
  rewrite returned_relocatable by apply validatePokemon_relocatable.
  apply validatePokemon_exact.
Qed.

(** X3.  [validateMove] reports a name exactly when the table of the record
    has it as true. *)
Theorem validateMove_reports_exactly (move : value) (allowedTypes : js_set)
    (σ : store) (k : string) :
  k ∈ returned (validateMove move allowedTypes) σ ↔
  (k, true) ∈ move_fields move.
Proof.
  rewrite returned_relocatable by apply validateMove_relocatable.
  apply validateMove_exact.
Qed.

(** X4.  [validateItem] reports a name exactly when the table of the record
    has it as true. *)
Theorem validateItem_reports_exactly (item : value) (σ : store) (k : string) :
  k ∈ returned (validateItem item) σ ↔ (k, true) ∈ item_fields item.
Proof.
  rewrite returned_relocatable by apply validateItem_relocatable.
  apply validateItem_exact.
Qed.

(** X5.  [validateType] reports a name exactly when the table of the record
    has it as true. *)
Theorem validateType_reports_exactly (type : value) (σ : store) (k : string) :
  k ∈ returned (validateType type) σ ↔ (k, true) ∈ type_fields type.
Proof.
  rewrite returned_relocatable by apply validateType_relocatable.
  apply validateType_exact.
Qed.

(* ===================================================================== *)
(** ** The records that pass *)
(* ===================================================================== *)

Module Passing.

(** A list with the true entries of a table is empty exactly when no entry
    is true. *)
Lemma nil_iff_none_reported (l : list string) (t : list (string * bool)) :
  (∀ k, k ∈ l ↔ (k, true) ∈ t) →
  l = [] ↔ Forall (λ e, e.2 = false) t.
Proof.
  intros Hl. split.
  - intros ->. apply Forall_forall. intros [k b] Hkb. simpl.
    destruct b; [|done]. apply Hl in Hkb. by apply elem_of_nil in Hkb.
  - intros Hall. destruct l as [|k l]; [done|].
    assert ((k, true) ∈ t) as Hk by (apply Hl; left).
    rewrite Forall_forall in Hall. by apply Hall in Hk.
Qed.

(** From the entries of a table, none of them true, to the accepted shape
    and back. *)
Ltac entries :=
  unfold pokemon_fields, move_fields, item_fields, type_fields, top, sub,
    Accepted.pokemon, Accepted.move, Accepted.item, Accepted.type;
  rewrite !Forall_cons, Forall_nil; cbn [snd];
  rewrite !andb_true_iff, !negb_false_iff;
  split; intros H; destruct_and?;
  repeat match goal with
    | H : ?a = true |- _ => rewrite !H in *; clear H
    end;
  cbn [andb negb] in *;
  rewrite ?negb_false_iff in *;
  split_and?; done.

End Passing.
Import Passing.

Lemma validatePokemon_passes (r : value) :
  returned (validatePokemon r) [] = [] ↔ Accepted.pokemon r = true.
Proof.
  rewrite (nil_iff_none_reported _ (pokemon_fields r))
    by apply validatePokemon_exact.
  entries.
Qed.

Lemma validateMove_passes (r : value) (allowedTypes : js_set) :
  returned (validateMove r allowedTypes) [] = [] ↔ Accepted.move r = true.
Proof.
  rewrite (nil_iff_none_reported _ (move_fields r))
    by apply validateMove_exact.
  entries.
Qed.

Lemma validateItem_passes (r : value) :
  returned (validateItem r) [] = [] ↔ Accepted.item r = true.
Proof.
  rewrite (nil_iff_none_reported _ (item_fields r))
    by apply validateItem_exact.
  entries.
Qed.

Lemma validateType_passes (r : value) :
  returned (validateType r) [] = [] ↔ Accepted.type r = true.
Proof.
  rewrite (nil_iff_none_reported _ (type_fields r))
    by apply validateType_exact.
  entries.
Qed.

(** X6.  A validator returns the empty list exactly for the records of its
    accepted shape: every top-level field there as it should be, and every
    sub-field of [name], [base] and [profile].  The accepted shapes are
    wider than the data model's: a number may be infinite, [evolution] may
    be an array, [egg] may be empty, [ability] may hold anything. *)
Theorem validators_pass_exactly (r : value) (allowedTypes : js_set)
    (σ : store) :
  (returned (validatePokemon r) σ = [] ↔ Accepted.pokemon r = true) ∧
  (returned (validateMove r allowedTypes) σ = [] ↔ Accepted.move r = true) ∧
  (returned (validateItem r) σ = [] ↔ Accepted.item r = true) ∧
  (returned (validateType r) σ = [] ↔ Accepted.type r = true).
Proof.
  rewrite (returned_relocatable _ _ (validatePokemon_relocatable r)).
  rewrite (returned_relocatable _ _ (validateMove_relocatable r allowedTypes)).
  rewrite (returned_relocatable _ _ (validateItem_relocatable r)).
  rewrite (returned_relocatable _ _ (validateType_relocatable r)).
  split_and!.
  - apply validatePokemon_passes.
  - apply validateMove_passes.
  - apply validateItem_passes.
  - apply validateType_passes.
Qed.

(** A Pokémon with an infinite stat, an array for [evolution] and no egg
    group passes. *)
Example wider_than_the_data_model :
  returned (validatePokemon (Samples.obj
    [("id", Samples.num 1); ("name", Samples.bulbasaur_name);
     ("type", Samples.grass_poison);
     ("base", Samples.bulbasaur_base (VNumber (S754_infinity false)));
     ("species", Samples.str "Seed Pokemon");
     ("description", Samples.str "A strange seed.");
     ("evolution", VArray []);
     ("profile", Samples.obj
        [("height", Samples.str "0.7 m"); ("weight", Samples.str "6.9 kg");
         ("egg", VArray []); ("ability", VArray [VNull]);
         ("gender", Samples.str "87.5:12.5")])])) []
  = [].
Proof. vm_compute. reflexivity. Qed.

(* ===================================================================== *)
(** ** The order and the shape of a failure list *)
(* ===================================================================== *)

Module Order.

(** The loop over a table of required keys pushes the absent ones, in the
    order of the table. *)
Lemma run_for_of_push {A} (f : string → bool) (ks : list string)
    (rest : Heap A) (l : list string) :
  (for_of ks (λ key, when (f key) (push 0 key));; rest) [l]
  = rest [l ++ List.filter f ks].
Proof.
  revert l. induction ks as [|k ks IH]; intros l; simpl.
  - by rewrite run_ret, app_nil_r.
  - rewrite run_assoc, run_when_push, IH. unfold step.
    destruct (f k); [by rewrite <- (assoc_L (++)) | done].
Qed.

Lemma prefix_step l0 b k l : l0 `prefix_of` l → l0 `prefix_of` step b k l.
Proof.
  intros Hl. unfold step. destruct b; [|done]. by apply prefix_app_r.
Qed.

Lemma prefix_step_new l0 b k l :
  l0 `prefix_of` l → l0 `prefix_of` step_new b k l.
Proof.
  intros Hl. unfold step_new. destruct (_ && _); [|done].
  by apply prefix_app_r.
Qed.

Ltac prefix_chain :=
  repeat first [ apply prefix_step_new | apply prefix_step ]; done.

End Order.
Import Order.

Lemma validateType_absent_first (type : value) :
  List.filter (λ key, negb (js_in key type)) REQUIRED_TYPE_KEYS
    `prefix_of` returned (validateType type) [].
Proof.
  unfold returned, validateType. rewrite run_new_array.
  destruct (not_an_object type) eqn:Hg.
  - by destruct type.
  - cbv zeta. rewrite run_for_of_push. unroll. run_steps; prefix_chain.
Qed.

Lemma validatePokemon_absent_first (pokemon : value) :
  List.filter (λ key, negb (js_in key pokemon)) REQUIRED_POKEMON_KEYS
    `prefix_of` returned (validatePokemon pokemon) [].
Proof.
  unfold returned, validatePokemon. rewrite run_new_array.
  destruct (not_an_object pokemon) eqn:Hg.
  - by destruct pokemon.
  - cbv zeta. rewrite run_for_of_push. unroll. run_steps; prefix_chain.
Qed.

Lemma validateMove_absent_first (move : value) (allowedTypes : js_set) :
  List.filter (λ key, negb (js_in key move)) REQUIRED_MOVE_KEYS
    `prefix_of` returned (validateMove move allowedTypes) [].
Proof.
  unfold returned, validateMove. rewrite run_new_array.
  destruct (not_an_object move) eqn:Hg.
  - by destruct move.
  - cbv zeta. rewrite run_for_of_push. unroll. run_steps; prefix_chain.
Qed.

Lemma validateItem_absent_first (item : value) :
  List.filter (λ key, negb (js_in key item)) REQUIRED_ITEM_KEYS
    `prefix_of` returned (validateItem item) [].
Proof.
  unfold returned, validateItem. rewrite run_new_array.
  destruct (not_an_object item) eqn:Hg.
  - by destruct item.
  - cbv zeta. rewrite run_for_of_push. unroll. run_steps; prefix_chain.
Qed.

(** X7.  The required top-level keys that the input does not have head the
    failure list, in the order of the table; what the later checks report
    comes after them. *)
Theorem absent_keys_come_first (r : value) (allowedTypes : js_set)
    (σ : store) :
  List.filter (λ key, negb (js_in key r)) REQUIRED_POKEMON_KEYS
    `prefix_of` returned (validatePokemon r) σ ∧
  List.filter (λ key, negb (js_in key r)) REQUIRED_MOVE_KEYS
    `prefix_of` returned (validateMove r allowedTypes) σ ∧
  List.filter (λ key, negb (js_in key r)) REQUIRED_ITEM_KEYS
    `prefix_of` returned (validateItem r) σ ∧
  List.filter (λ key, negb (js_in key r)) REQUIRED_TYPE_KEYS
    `prefix_of` returned (validateType r) σ.
Proof.
  rewrite (returned_relocatable _ _ (validatePokemon_relocatable r)).
  rewrite (returned_relocatable _ _ (validateMove_relocatable r allowedTypes)).
  rewrite (returned_relocatable _ _ (validateItem_relocatable r)).
  rewrite (returned_relocatable _ _ (validateType_relocatable r)).
  split_and!.
  - apply validatePokemon_absent_first.
  - apply validateMove_absent_first.
  - apply validateItem_absent_first.
  - apply validateType_absent_first.
Qed.

Module Exclusive.

(** The entries of a table that can be the given one. *)
Ltac entry_cases H :=
  unfold pokemon_fields, move_fields, item_fields, top, sub in H;
  cbv [String.append] in H;
  repeat (apply elem_of_cons in H as [H|H]);
  [ .. | by apply elem_of_nil in H ];
  inversion H; subst; clear H.

(** A container is reported, or one of its sub-fields, not both. *)
Ltac container_or_sub Hp Hs :=
  entry_cases Hp; entry_cases Hs;
  match goal with
  | H1 : true = negb ?c, H2 : true = ?c && _ |- _ =>
      destruct c; discriminate
  end.

End Exclusive.
Import Exclusive.

(** X8.  A container ([name], [base], [profile]) and a sub-field of it are
    never reported together: the sub-fields are checked only when the
    container is there. *)
Theorem container_or_its_fields (r : value) (allowedTypes : js_set)
    (σ : store) (field : string) :
  ("name" ∈ returned (validatePokemon r) σ →
   "name." +:+ field ∉ returned (validatePokemon r) σ) ∧
  ("base" ∈ returned (validatePokemon r) σ →
   "base." +:+ field ∉ returned (validatePokemon r) σ) ∧
  ("profile" ∈ returned (validatePokemon r) σ →
   "profile." +:+ field ∉ returned (validatePokemon r) σ) ∧
  ("name" ∈ returned (validateMove r allowedTypes) σ →
   "name." +:+ field ∉ returned (validateMove r allowedTypes) σ) ∧
  ("name" ∈ returned (validateItem r) σ →
   "name." +:+ field ∉ returned (validateItem r) σ).
Proof.
  rewrite (returned_relocatable _ _ (validatePokemon_relocatable r)).
  rewrite (returned_relocatable _ _ (validateMove_relocatable r allowedTypes)).
  rewrite (returned_relocatable _ _ (validateItem_relocatable r)).
  split_and!; intros Hp Hs.
  - apply validatePokemon_exact in Hp, Hs. container_or_sub Hp Hs.
  - apply validatePokemon_exact in Hp, Hs. container_or_sub Hp Hs.
  - apply validatePokemon_exact in Hp, Hs. container_or_sub Hp Hs.
  - apply validateMove_exact in Hp, Hs. container_or_sub Hp Hs.
  - apply validateItem_exact in Hp, Hs. container_or_sub Hp Hs.
Qed.

Lemma container_or_its_fields_witness :
  ("name" ∈ returned (validatePokemon (Samples.obj [])) []) ∧
  ("name." +:+ "english" ∉ returned (validatePokemon (Samples.obj [])) []).
Proof.
  assert ("name" ∈ returned (validatePokemon (Samples.obj [])) []) as Hname
    by decide_closed.
  split; [exact Hname|].
  exact (proj1 (container_or_its_fields (Samples.obj []) [] [] "english")
           Hname).
Defined.

(* ===================================================================== *)
(** ** The arrays of earlier calls *)
(* ===================================================================== *)

Lemma unchanged_before (c : Heap ref) (σ : store) :
  relocatable c →
  let '(a, σ') := c σ in σ `prefix_of` σ' ∧ length σ ≤ a < length σ'.
Proof.
  intros [Hlt Hc]. rewrite (Hc σ). split; [by apply prefix_app_r|].
  rewrite length_app. lia.
Qed.

(** X9.  A validator leaves every array that was there before the call as
    it was, and returns an array that it allocated itself. *)
Theorem validators_leave_older_arrays (r : value) (allowedTypes : js_set)
    (σ : store) :
  (let '(a, σ') := validatePokemon r σ in
   σ `prefix_of` σ' ∧ length σ ≤ a < length σ') ∧
  (let '(a, σ') := validateMove r allowedTypes σ in
   σ `prefix_of` σ' ∧ length σ ≤ a < length σ') ∧
  (let '(a, σ') := validateItem r σ in
   σ `prefix_of` σ' ∧ length σ ≤ a < length σ') ∧
  (let '(a, σ') := validateType r σ in
   σ `prefix_of` σ' ∧ length σ ≤ a < length σ').
Proof.
  split_and!; apply unchanged_before.
  - apply validatePokemon_relocatable.
  - apply validateMove_relocatable.
  - apply validateItem_relocatable.
  - apply validateType_relocatable.
Qed.

(* ===================================================================== *)
(** ** What the scripts write and print *)
(* ===================================================================== *)

Module Collect.
Import Report.

(** The loop of [main]: [failures] gets an entry for each failing record,
    in order, and the array of each entry holds the record's failure
    list. *)
Lemma for_pushing_collects (validate : value → Heap ref)
    (mk : value → ref → Failure)
    (body : value → list Failure → Proc (list Failure))
    (records : list value) :
  (∀ r, relocatable (validate r)) →
  (∀ r fs, body r fs =
     (a ← on_heap (validate r);
      n ← on_heap (array_length a);
      if (0 <? n)%nat then mret (fs ++ [mk r a]) else mret fs)) →
  ∀ fs p, ∃ news σx,
    for_pushing records fs body p
      = (fs ++ news, {| heap := heap p ++ σx; trace := trace p |}) ∧
    Forall2 (λ f r, ∃ a, f = mk r a ∧
                         (heap p ++ σx) !! a = Some (returned (validate r) []))
      news (failing validate records).
Proof.
  intros Hreloc Hbody.
  induction records as [|r records IH]; intros fs p.
  - exists [], []. destruct p. simpl. rewrite !app_nil_r. by split.
  - simpl. unfold mbind at 1, Proc_bind at 1. rewrite Hbody.
    unfold mbind, Proc_bind.
    rewrite on_heap_validate by apply Hreloc.
    unfold on_heap, array_length. cbn [heap trace].
    pose proof (Hreloc r) as [Hlt _].
    rewrite lookup_total_app_r by lia.
    replace (length (heap p) + (validate r []).1 - length (heap p))
      with (validate r []).1 by lia.
    match goal with |- context [ (0 <? length ?t)%nat ] => set (l0 := t) end.
    assert (returned (validate r) [] = l0) as Hret
      by (unfold returned; subst l0; by destruct (validate r [])).
    assert ((validate r []).2 !! (validate r []).1
            = Some (returned (validate r) [])) as Hsome.
    { rewrite Hret. subst l0. by apply list_lookup_lookup_total_lt. }
    clearbody l0. subst l0.
    unfold failing, fails. simpl.
    destruct (returned (validate r) []) as [|k l] eqn:Hl; simpl.
    + destruct (IH fs {| heap := heap p ++ (validate r []).2;
                          trace := trace p |}) as (news & σx & Hrun & Hall).
      exists news, ((validate r []).2 ++ σx).
      cbn [heap trace] in *. rewrite (assoc_L (++)). by split.
    + destruct (IH (fs ++ [mk r (length (heap p) + (validate r []).1)])
                  {| heap := heap p ++ (validate r []).2;
                     trace := trace p |}) as (news & σx & Hrun & Hall).
      exists (mk r (length (heap p) + (validate r []).1) :: news),
             ((validate r []).2 ++ σx).
      cbn [heap trace] in *. rewrite (assoc_L (++)).
      split; [by rewrite Hrun, <- (assoc_L (++))|].
      constructor; [|done]. eexists. split; [done|].
      rewrite <- (assoc_L (++)), lookup_app_r by lia.
      rewrite lookup_app_l by lia. rewrite ?Hl, <- Hsome. f_equal. lia.
Qed.

Lemma failure_json_value (f : Failure) (p : process) :
  failure_json f p
  = (failure_value (fid f) (fname f) (heap p !!! missingKeys f),
     {| heap := heap p; trace := trace p |}).
Proof.
  unfold failure_json, failure_value, mbind, Proc_bind, on_heap, mret,
    Proc_ret. by destruct (fname f).
Qed.

Lemma failures_json_value (fs : list Failure) (p : process) :
  failures_json fs p
  = ((λ f, failure_value (fid f) (fname f) (heap p !!! missingKeys f)) <$> fs,
     {| heap := heap p; trace := trace p |}).
Proof.
  revert p. induction fs as [|f fs IH]; intros p; simpl.
  - by destruct p.
  - unfold mbind at 1, Proc_bind at 1. rewrite failure_json_value.
    unfold mbind at 1, Proc_bind at 1. by rewrite IH.
Qed.

(** The loop that prints the failures logs two lines for each. *)
Lemma for_each_two_logs (body : Failure → Proc unit) (fs : list Failure) :
  (∀ f p, ∃ l1 l2, body f p =
     (tt, {| heap := heap p;
             trace := (trace p ++ [ConsoleLog l1]) ++ [ConsoleLog l2] |})) →
  ∀ p, ∃ logs,
    for_each fs body p = (tt, {| heap := heap p; trace := trace p ++ logs |}) ∧
    Forall is_log logs ∧ length logs = 2 * length fs.
Proof.
  intros Hbody. induction fs as [|f fs IH]; intros p; simpl.
  - exists []. destruct p. simpl. by rewrite app_nil_r.
  - unfold mbind, Proc_bind.
    destruct (Hbody f p) as (l1 & l2 & ->).
    destruct (IH {| heap := heap p;
                    trace := (trace p ++ [ConsoleLog l1]) ++ [ConsoleLog l2] |})
      as (logs & -> & Hlogs & Hlen).
    exists (ConsoleLog l1 :: ConsoleLog l2 :: logs). simpl. split_and!.
    + by rewrite <- !(assoc_L (++)).
    + repeat constructor; [by eexists..|done].
    + lia.
Qed.

(** What follows the loop in [main], event by event. *)
Lemma main_tail_trace (path : string) (fs : list Failure) (σ : store)
    (results : list value → value) (ok1 ok2 bad1 bad2 : list piece)
    (body : Failure → Proc unit) :
  (∀ f p, ∃ l1 l2, body f p =
     (tt, {| heap := heap p;
             trace := (trace p ++ [ConsoleLog l1]) ++ [ConsoleLog l2] |})) →
  reports path
    (results ((λ f, failure_value (fid f) (fname f) (σ !!! missingKeys f))
              <$> fs))
    (length fs)
    ((failures_data ← failures_json fs;
      writeFileSync path (results failures_data);;
      if (length fs =? 0)%nat then
        console_log ok1;; console_log ok2;; mret Returned
      else
        console_log bad1;; console_log bad2;;
        for_each fs body;; set_exitCode 1;; mret Returned)
     {| heap := σ; trace := [] |}).
Proof.
  intros Hbody. unfold reports.
  unfold mbind at 1, Proc_bind at 1. rewrite failures_json_value.
  unfold mbind at 1, Proc_bind at 1. unfold writeFileSync at 1, emit at 1.
  cbn [heap trace app].
  destruct (length fs =? 0)%nat eqn:Hlen.
  - apply Nat.eqb_eq in Hlen. rewrite Hlen. simpl. split; [done|].
    eexists [_; _]. split_and!; [done | | done].
    repeat constructor; by eexists.
  - unfold mbind, Proc_bind, console_log, emit. cbn [heap trace app].
    destruct (for_each_two_logs body fs Hbody
               {| heap := σ;
                  trace := [WriteFile path (results
                    ((λ f, failure_value (fid f) (fname f)
                             (σ !!! missingKeys f)) <$> fs));
                    ConsoleLog bad1; ConsoleLog bad2] |})
      as (logs & -> & Hlogs & Hlogn).
    unfold set_exitCode, emit. cbn [heap trace app mret Proc_ret].
    split; [done|]. exists (ConsoleLog bad1 :: ConsoleLog bad2 :: logs).
    split_and!; [done | | simpl; lia].
    repeat constructor; [by eexists..|done].
Qed.

(** The entries of [failures], as the report shows them. *)
Lemma collected_values (validate : value → Heap ref)
    (mk : value → ref → Failure) (news : list Failure) (σ : store)
    (records : list value) :
  (∀ r a, mk r a = {| fid := fid (mk r 0); fname := fname (mk r 0);
                      missingKeys := a |}) →
  Forall2 (λ f r, ∃ a, f = mk r a ∧
                       σ !! a = Some (returned (validate r) []))
    news records →
  (λ f, failure_value (fid f) (fname f) (σ !!! missingKeys f)) <$> news
  = (λ r, failure_value (fid (mk r 0)) (fname (mk r 0))
            (returned (validate r) [])) <$> records.
Proof.
  intros Hmk. induction 1 as [|f r news records (a & -> & Ha) _ IH]; [done|].
  rewrite !fmap_cons, IH. f_equal. rewrite (Hmk r a). simpl.
  by rewrite (list_lookup_total_correct _ _ _ Ha).
Qed.

End Collect.
Import Collect Report.



(** X13.  The types script: the report lists the failing types in order,
    each under its name only, with its failure list; two lines are printed,
    and two more for each failure; the exit code is set to 1 if there is a
    failure. *)
Theorem Types_main_report (now : jsstring) (types : list value) :
  reports Types.outputPath
    (report "totalTypes" "typesWithMissingKeys" now (length types)
       ((λ r, failure_value None (type_name r) (returned (validateType r) []))
        <$> failing validateType types))
    (length (failing validateType types))
    (Types.main now types start).
Proof.
  unfold Types.main.
  unfold mbind at 1, Proc_bind at 1.
  edestruct (for_pushing_collects validateType
               (λ r a, {| fid := None; fname := type_name r;
                          missingKeys := a |}))
    as (news & σx & -> & Hnews);
    [apply validateType_relocatable | reflexivity |].
  cbn [app heap trace start] in *.
  pose proof (Forall2_length _ _ _ Hnews) as Hlen.
  pose proof (collected_values _ _ _ _ _ (λ _ _, eq_refl) Hnews) as Hvalues.
  cbn [fid fname] in Hvalues.
  rewrite <- Hvalues, <- Hlen. unfold report. rewrite length_fmap.
  apply (main_tail_trace _ _ _ (λ failures_data, VObject _)). two_logs.
Qed.

(** X11.  The moves script, when no entry of the type list is [null]: the
    report lists the failing moves in order, each with its failure list;
    two lines are printed, and two more for each failure; the exit code is
    set to 1 if there is a failure. *)
Theorem Moves_main_report (now : jsstring) (moves types : list value) :
  Forall (λ t, t ≠ VNull ∧ t ≠ VUndefined) types →
  reports Moves.outputPath
    (report "totalMoves" "movesWithMissingKeys" now (length moves)
       ((λ r, failure_value (Some (id_or_unknown "string" r)) (english_name r)
                (returned (validateMove r []) []))
        <$> failing (λ move, validateMove move []) moves))
    (length (failing (λ move, validateMove move []) moves))
    (Moves.main now moves types start).
Proof.
  intros [allowedTypes Hread]%read_english_all.
  unfold Moves.main. rewrite Hread.
  unfold mbind at 1, Proc_bind at 1.
  edestruct (for_pushing_collects (λ move, validateMove move allowedTypes)
               (λ r a, {| fid := Some (id_or_unknown "string" r);
                          fname := english_name r; missingKeys := a |}))
    as (news & σx & -> & Hnews);
    [intros r; apply validateMove_relocatable | reflexivity |].
  cbn [app heap trace start] in *.
  pose proof (Forall2_length _ _ _ Hnews) as Hlen.
  pose proof (collected_values _ _ _ _ _ (λ _ _, eq_refl) Hnews) as Hvalues.
  cbn [fid fname] in Hvalues.
  change (failing (λ move, validateMove move allowedTypes) moves)
    with (failing (λ move, validateMove move []) moves) in *.
  change (λ r, failure_value (Some (id_or_unknown "string" r)) (english_name r)
                 (returned (validateMove r allowedTypes) []))
    with (λ r, failure_value (Some (id_or_unknown "string" r)) (english_name r)
                 (returned (validateMove r []) [])) in Hvalues.
  rewrite <- Hvalues, <- Hlen. unfold report. rewrite length_fmap.
  apply (main_tail_trace _ _ _ (λ failures_data, VObject _)). two_logs.
Qed.

Lemma Moves_main_report_witness :
  reports Moves.outputPath
    (report "totalMoves" "movesWithMissingKeys"
       (utf16 "2024-01-01T00:00:00.000Z") 2
       [failure_value (Some (VString (utf16 "unknown"))) VUndefined
          REQUIRED_MOVE_KEYS])
    1
    (Moves.main (utf16 "2024-01-01T00:00:00.000Z") [Samples.pound; VNull]
       [Samples.normal_type] start).
Proof.
  apply (Moves_main_report (utf16 "2024-01-01T00:00:00.000Z")
           [Samples.pound; VNull] [Samples.normal_type]).
  repeat constructor; discriminate.
Defined.

(** A [null] among the types: [t.english] throws. *)
Lemma read_english_throws (types : list value) :
  Exists (λ t, t = VNull ∨ t = VUndefined) types →
  mapM read_english types = None.
Proof.
  induction 1 as [t types [-> | ->] | t types _ IH]; simpl; try done.
  rewrite IH. by destruct (read_english t).
Qed.

(** X14.  With a [null] anywhere in the type list, the moves script ends on
    an uncaught TypeError before it has done anything: nothing is
    validated, written or printed, whatever the moves are. *)
Theorem Moves_main_throws_on_null_type (now : jsstring)
    (moves types : list value) (p : process) :
  Exists (λ t, t = VNull ∨ t = VUndefined) types →
  Moves.main now moves types p = (Uncaught, p).
Proof.
  intros Hnull%read_english_throws. unfold Moves.main. by rewrite Hnull.
Qed.

Lemma Moves_main_throws_on_null_type_witness :
  Moves.main (utf16 "2024-01-01T00:00:00.000Z") [Samples.pound]
    [Samples.normal_type; VNull] start = (Uncaught, start).
Proof.
  apply Moves_main_throws_on_null_type. right. left. by left.
Defined.

(** X15.  What the moves script does (report, console, exit code) does not
    depend on the type list, as long as it reads it without a TypeError. *)
Theorem Moves_main_ignores_types (now : jsstring)
    (moves types1 types2 : list value) (p : process) :
  Forall (λ t, t ≠ VNull ∧ t ≠ VUndefined) types1 →
  Forall (λ t, t ≠ VNull ∧ t ≠ VUndefined) types2 →
  Moves.main now moves types1 p = Moves.main now moves types2 p.
Proof.
  intros [allowed1 Hread1]%read_english_all [allowed2 Hread2]%read_english_all.
  unfold Moves.main. rewrite Hread1, Hread2. reflexivity.
Qed.

Lemma Moves_main_ignores_types_witness :
  Moves.main (utf16 "2024-01-01T00:00:00.000Z") [Samples.pound; VNull]
    [Samples.normal_type] start
  = Moves.main (utf16 "2024-01-01T00:00:00.000Z") [Samples.pound; VNull]
      [VBool true; Samples.bulbasaur] start.
Proof.
  apply Moves_main_ignores_types; repeat constructor; discriminate.
Defined.

(* ===================================================================== *)
(** ** Validated records and the declared types *)
(* ===================================================================== *)

Module Typing.
Import DataModel Interfaces.

Lemma has_inv o key shape :
  has o key shape = true →
  ∃ props v, o = VObject props ∧ props !! key = Some v ∧ shape v = true.
Proof.
  destruct o as [| | | | | |props]; try done. simpl.
  destruct (props !! key) as [v|] eqn:Hv; [|done]. intros Hs. by exists props, v.
Qed.

Lemma text_inv v : text v = true → ∃ s, v = VString s.
Proof. destruct v; try done. by eexists. Qed.

Lemma number_inv v : number v = true → ∃ n, v = VNumber n.
Proof. destruct v; try done. by eexists. Qed.

Lemma strings_inv v :
  strings v = true → ∃ vs, v = VArray vs ∧ forallb (has_type TString) vs = true.
Proof. destruct v; try done. by eexists. Qed.

Lemma some_strings_inv v :
  some_strings v = true →
  ∃ vs, v = VArray vs ∧ forallb (has_type TString) vs = true.
Proof. destruct v as [| | | | |[|x vs]|]; try done. by eexists. Qed.

Lemma array_inv v : array v = true → ∃ vs, v = VArray vs.
Proof. destruct v; try done. by eexists. Qed.

Lemma container_inv v :
  container v = true → (∃ vs, v = VArray vs) ∨ (∃ props, v = VObject props).
Proof. destruct v; try done; eauto. Qed.

(** Takes an accepted record apart: the object, its fields, what they
    hold. *)
Ltac take_apart :=
  repeat match goal with
    | H : _ && _ = true |- _ => apply andb_prop in H; destruct H
    | H : has _ _ _ = true |- _ =>
        apply has_inv in H; destruct H as (? & ? & ? & ? & ?)
    | H : VObject _ = VObject _ |- _ => injection H as H
    | H : get (VObject ?props) ?k = _, L : ?props !! ?k = Some _ |- _ =>
        unfold get in H; rewrite L in H; simpl in H
    | H : text _ = true |- _ => apply text_inv in H; destruct H
    | H : number _ = true |- _ => apply number_inv in H; destruct H
    | H : strings _ = true |- _ => apply strings_inv in H; destruct H as (? & ? & ?)
    | H : some_strings _ = true |- _ =>
        apply some_strings_inv in H; destruct H as (? & ? & ?)
    | H : array _ = true |- _ => apply array_inv in H; destruct H
    | _ => progress subst
    end.

(** Reads the fields found off the record. *)
Ltac read_fields :=
  unfold Pokemon, PokemonName, BaseStats, Profile, Move, MoveName, Item,
    ItemName, required, get;
  cbn [has_type] in *;
  repeat (progress (
    repeat match goal with
      | L : _ !! _ = Some _ |- _ => rewrite !L
      end;
    cbn [has_type andb default from_option id]));
  repeat match goal with
    | H : forallb _ _ = true |- _ => rewrite !H; clear H
    end;
  cbn [andb];
  rewrite ?andb_true_r.

End Typing.
Import Typing Interfaces.

Lemma accepted_item_typed (r : value) :
  Accepted.item r = true → has_type Item r = true.
Proof.
  unfold Accepted.item. intros H. take_apart. read_fields. done.
Qed.

Lemma accepted_move_typed (r : value) :
  Accepted.move r = true →
  has_type Move r = true ↔
  ∃ c, get r "category" = VString c ∧ c ∈ DataModel.declared_categories.
Proof.
  unfold Accepted.move. intros H. take_apart. read_fields.
  rewrite bool_decide_eq_true. split.
  - intros Hc. by eexists.
  - by intros (c & [= <-] & Hc).
Qed.


Lemma evolution_defined (v : value) :
  match v with VUndefined => false | _ => has_type Evolution v end
  = has_type Evolution v.
Proof. by destruct v. Qed.

Lemma accepted_pokemon_typed (r : value) :
  Accepted.pokemon r = true →
  has_type Pokemon r = true ↔
  has_type Evolution (get r "evolution") = true ∧
  has_type Abilities (get (get r "profile") "ability") = true.
Proof.
  unfold Accepted.pokemon. intros H. take_apart. read_fields.
  by rewrite andb_true_iff, evolution_defined.
Qed.

(** X16.  An item that [validateItem] passes has the declared type [Item]:
    the narrowing from an unknown value is sound. *)
Theorem validated_item_is_an_Item (item : value) (σ : store) :
  returned (validateItem item) σ = [] → has_type Item item = true.
Proof.
  intros H. apply accepted_item_typed.
  by apply (validators_pass_exactly item [] σ).
Qed.

Lemma validated_item_is_an_Item_witness :
  has_type Item Samples.master_ball = true.
Proof.
  apply (validated_item_is_an_Item Samples.master_ball []).
  vm_compute. reflexivity.
Defined.

(** X17.  A move that [validateMove] passes has the declared type [Move]
    exactly when its category is one of the four declared ones; the other
    properties are as declared. *)
Theorem validated_move_is_a_Move (move : value) (allowedTypes : js_set)
    (σ : store) :
  returned (validateMove move allowedTypes) σ = [] →
  has_type Move move = true ↔
  ∃ c, get move "category" = VString c ∧ c ∈ DataModel.declared_categories.
Proof.
  intros H. apply accepted_move_typed.
  by apply (validators_pass_exactly move allowedTypes σ).
Qed.

Lemma validated_move_is_a_Move_witness :
  has_type Move Samples.pound = true ∧
  has_type Move
    (Samples.pound_with (Samples.str "Banana") (Samples.str "40")) = false.
Proof.
  split.
  - apply (validated_move_is_a_Move Samples.pound [] []);
      [vm_compute; reflexivity|].
    exists (utf16 "Physical"). split; [reflexivity | decide_closed].
  - destruct (has_type Move
      (Samples.pound_with (Samples.str "Banana") (Samples.str "40"))) eqn:Ht;
      [|reflexivity].
    apply (validated_move_is_a_Move
             (Samples.pound_with (Samples.str "Banana") (Samples.str "40"))
             [] []) in Ht as (c & Hc & Hin); [|vm_compute; reflexivity].
    injection Hc as <-. exfalso. revert Hin.
    apply (bool_decide_unpack _). vm_compute. exact I.
Defined.

(** X18.  A Pokémon that [validatePokemon] passes has the declared type
    [Pokemon] exactly when its [evolution] is an [Evolution] and its
    abilities are pairs of strings, the two things the validator does not
    look into; the other properties are as declared. *)
Theorem validated_pokemon_is_a_Pokemon (pokemon : value) (σ : store) :
  returned (validatePokemon pokemon) σ = [] →
  has_type Pokemon pokemon = true ↔
  has_type Evolution (get pokemon "evolution") = true ∧
  has_type Abilities (get (get pokemon "profile") "ability") = true.
Proof.
  intros H. apply accepted_pokemon_typed.
  by apply (validators_pass_exactly pokemon [] σ).
Qed.

Lemma validated_pokemon_is_a_Pokemon_witness :
  has_type Pokemon Samples.bulbasaur = true.
Proof.
  apply (validated_pokemon_is_a_Pokemon Samples.bulbasaur []);
    [vm_compute; reflexivity|].
  split; vm_compute; reflexivity.
Defined.
